(** * FormManager: a reactive form-state engine

    Shallow embedding of [src/FormManager.ts] (classes [ValidationRule],
    [FormFieldConditionalEvent], [FormFieldConditional], [FormField] and
    [FormManager]) and the properties of its operations.  The second source
    file is an earlier spelling of the same classes, with [controls] where
    this one has [formFields]; its methods have the same bodies.

    Modelling decisions.

    - JavaScript objects are mutable and shared by reference.  Every
      [FormField] lives in a heap ([heap]); the two tables of the manager map
      a field name to a reference into it.  [new FormField] allocates a fresh
      cell, an assignment [f.x = v] overwrites the cell.
    - [formFields] and [conditionallyRemovedFormFields] are plain objects used
      as tables.  A table is the list of its own properties in creation order
      ([JSObject]); [Object_keys] enumerates canonical array indices first, in
      ascending order, then the other keys in creation order, as
      [Object.keys] does.  Both tables are created by [{}], so a lookup
      [o[k]] that finds no own property goes on to [Object.prototype]:
      [read] gives the own property, or the inherited member for the names
      of [Object_prototype_names], or [undefined].  [get], [set], [delete]
      and [has] are the own-property primitives under it.
    - The model covers the manager as long as [Object.prototype] and the
      prototypes of the two tables are what the language makes them.  A call
      that would write to a member of [Object.prototype], or replace the
      prototype of a table by assigning under [__proto__], ends with the
      completion [Unmodelled]: the model says nothing of what follows it.
      No table of a manager built by the operations has an own property
      called [__proto__] ([table_invariant_calls]); a state of the model
      that has one stands for no such manager.
    - [any] is the type [Value]; [===] is [strict_equal].  Numbers are the
      integers and [NaN], which is not equal to itself.
    - The two user callbacks [validate] and [isShowing] are total functions
      that read the form and never write it (spec sections 4.1 and 4.2).
      What they can read is a [FormView]: the data of every field and the
      two tables.
    - An operation is a computation in the monad [M]: it takes the manager,
      returns a completion (normal or thrown), the manager it leaves behind
      (a throw keeps the writes made before it) and the list of callback
      evaluations it performed. *)

From Stdlib Require Import String Ascii List Bool Arith NArith ZArith Lia Permutation.
Import ListNotations.
Local Open Scope string_scope.

Set Implicit Arguments.

(** ** Values *)

Definition Ref := nat.

Inductive Value : Type :=
| VUndefined
| VNull
| VBoolean (b : bool)
| VNumber (z : Z)
| VNaN
| VString (s : string)
| VObject (r : Ref).

(** [a === b]; [NaN === NaN] is [false]. *)
Definition strict_equal (a b : Value) : bool :=
  match a, b with
  | VUndefined, VUndefined => true
  | VNull, VNull => true
  | VBoolean x, VBoolean y => Bool.eqb x y
  | VNumber x, VNumber y => Z.eqb x y
  | VString x, VString y => String.eqb x y
  | VObject x, VObject y => Nat.eqb x y
  | _, _ => false
  end.

(** ** Objects used as tables *)

(** The own properties of an object, in creation order.  An object has
    each own name once, and no operation of the manager creates an own
    property called [__proto__] ([table_invariant_calls] below). *)
Definition JSObject (A : Type) := list (string * A).

(** The property names every object created by [{}] inherits. *)
Definition Object_prototype_names : list string :=
  ["constructor"; "__defineGetter__"; "__defineSetter__"; "hasOwnProperty";
   "__lookupGetter__"; "__lookupSetter__"; "isPrototypeOf";
   "propertyIsEnumerable"; "toString"; "valueOf"; "__proto__";
   "toLocaleString"].

(** Is [k] the name of a member of [Object.prototype]? *)
Definition inherited (k : string) : bool :=
  existsb (String.eqb k) Object_prototype_names.

(** What [o[k]] evaluates to: an own property, the member of
    [Object.prototype] called [k] (a function, or [Object.prototype] itself
    for [__proto__]: a truthy value whose [isValid] and [conditional] are
    [undefined]), or [undefined]. *)
Inductive Lookup (A : Type) : Type :=
| Own (v : A)
| Inherited (k : string)
| Undefined.
Arguments Inherited {A} k.
Arguments Undefined {A}.

Section Table.
Variable A : Type.

(** The own property [k] of [o], if any. *)
Fixpoint get (k : string) (o : JSObject A) : option A :=
  match o with
  | [] => None
  | (k', v) :: o' => if String.eqb k k' then Some v else get k o'
  end.

(** [o[k] = v] where it creates or overwrites an own property: an existing
    property keeps its place, a new one goes last.  Every name but
    [__proto__] is assigned so; under [__proto__] the assignment replaces the
    prototype of [o] and creates no property, and the operations below do
    not use [set] for it. *)
Fixpoint set (k : string) (v : A) (o : JSObject A) : JSObject A :=
  match o with
  | [] => [(k, v)]
  | (k', v') :: o' =>
      if String.eqb k k' then (k', v) :: o' else (k', v') :: set k v o'
  end.

(** [delete o[k]] *)
Fixpoint delete (k : string) (o : JSObject A) : JSObject A :=
  match o with
  | [] => []
  | (k', v') :: o' =>
      if String.eqb k k' then delete k o' else (k', v') :: delete k o'
  end.

(** Is [k] an own property of [o]? *)
Definition has (k : string) (o : JSObject A) : bool :=
  match get k o with Some _ => true | None => false end.

(** [o[k]], for an object whose prototype is [Object.prototype]. *)
Definition read (k : string) (o : JSObject A) : Lookup A :=
  match get k o with
  | Some v => Own v
  | None => if inherited k then Inherited k else Undefined
  end.

Definition own_names (o : JSObject A) : list string := map fst o.
End Table.

(** *** Enumeration order of [Object.keys] *)

Definition digit_of (c : ascii) : option N :=
  let n := N_of_ascii c in
  if (48 <=? n)%N && (n <=? 57)%N then Some (n - 48)%N else None.

Fixpoint parse_digits (s : string) (acc : N) : option N :=
  match s with
  | EmptyString => Some acc
  | String c r =>
      match digit_of c with
      | Some d => parse_digits r (10 * acc + d)%N
      | None => None
      end
  end.

(** A canonical numeric string below [2^32 - 1] is an array index. *)
Definition array_index (s : string) : option N :=
  match s with
  | EmptyString => None
  | String "0"%char EmptyString => Some 0%N
  | String "0"%char _ => None
  | _ =>
      match parse_digits s 0 with
      | Some n => if (n <? 4294967295)%N then Some n else None
      | None => None
      end
  end.

Definition is_array_index (s : string) : bool :=
  match array_index s with Some _ => true | None => false end.

Definition index_of_key (s : string) : N :=
  match array_index s with Some n => n | None => 0%N end.

Fixpoint insert_by_index (k : string) (l : list string) : list string :=
  match l with
  | [] => [k]
  | k' :: l' =>
      if (index_of_key k <=? index_of_key k')%N then k :: l
      else k' :: insert_by_index k l'
  end.

Fixpoint sort_by_index (l : list string) : list string :=
  match l with
  | [] => []
  | k :: l' => insert_by_index k (sort_by_index l')
  end.

Definition Object_keys (A : Type) (o : JSObject A) : list string :=
  (sort_by_index (filter is_array_index (own_names o))
     ++ filter (fun k => negb (is_array_index k)) (own_names o))%list.

(** [a.indexOf(x)] on an array of strings *)
Fixpoint indexOf_from (i : Z) (x : string) (a : list string) : Z :=
  match a with
  | [] => (-1)%Z
  | y :: a' => if String.eqb y x then i else indexOf_from (i + 1)%Z x a'
  end.

Definition indexOf (x : string) (a : list string) : Z := indexOf_from 0%Z x a.

(** ** What a callback can read *)

Record FieldView : Type := mkFieldView {
  view_name : string;
  view_value : Value;
  view_isValid : bool;
  view_isTouched : bool;
  view_errorMessage : string;
  view_dependencies : list string;
  view_isShowing : bool
}.

Record FormView : Type := mkFormView {
  view_heap : list FieldView;
  view_formFields : JSObject Ref;
  view_conditionallyRemovedFormFields : JSObject Ref
}.

(** ** The classes *)

Module ValidationRule.
Record t : Type := new {
  type : string;
  errorMessage : string;
  validate : Value -> FormView -> bool
}.

Definition createRule (ruleType errorMessage : string)
    (validateFunc : Value -> FormView -> bool) : t :=
  new ruleType errorMessage validateFunc.
End ValidationRule.

Module FormFieldConditionalEvent.
Record t : Type := mk {
  formField : Ref;
  form : FormView;
  reason : string
}.
End FormFieldConditionalEvent.

Module FormFieldConditional.
Record t : Type := new {
  dependencies : list string;
  isShowing : FormFieldConditionalEvent.t -> bool
}.
End FormFieldConditional.

Module FormField.
Record t : Type := mk {
  name : string;
  value : Value;
  isValid : bool;
  isTouched : bool;
  errorMessage : string;
  validationRules : list ValidationRule.t;
  context : JSObject Value;
  conditional : FormFieldConditional.t;
  isShowing : bool
}.

(** [new FormField(name, initialValue)] with the field initialisers. *)
Definition new (name : string) (initialValue : Value) : t :=
  {| name := name;
     value := initialValue;
     isValid := false;
     isTouched := false;
     errorMessage := "";
     validationRules := [];
     context := [];
     conditional := FormFieldConditional.new [] (fun _ => true);
     isShowing := true |}.

Definition set_isTouched (b : bool) (f : t) : t :=
  mk (name f) (value f) (isValid f) b (errorMessage f)
     (validationRules f) (context f) (conditional f) (isShowing f).

Definition set_value (v : Value) (f : t) : t :=
  mk (name f) v (isValid f) (isTouched f) (errorMessage f)
     (validationRules f) (context f) (conditional f) (isShowing f).

Definition set_isValid (b : bool) (f : t) : t :=
  mk (name f) (value f) b (isTouched f) (errorMessage f)
     (validationRules f) (context f) (conditional f) (isShowing f).

Definition set_errorMessage (m : string) (f : t) : t :=
  mk (name f) (value f) (isValid f) (isTouched f) m
     (validationRules f) (context f) (conditional f) (isShowing f).

Definition set_validationRules (r : list ValidationRule.t) (f : t) : t :=
  mk (name f) (value f) (isValid f) (isTouched f) (errorMessage f)
     r (context f) (conditional f) (isShowing f).

Definition set_conditional (c : FormFieldConditional.t) (f : t) : t :=
  mk (name f) (value f) (isValid f) (isTouched f) (errorMessage f)
     (validationRules f) (context f) c (isShowing f).

Definition view (f : t) : FieldView :=
  mkFieldView (name f) (value f) (isValid f) (isTouched f) (errorMessage f)
    (FormFieldConditional.dependencies (conditional f)) (isShowing f).
End FormField.

(** ** The manager *)

Record FormManager : Type := mkFormManager {
  heap : list FormField.t;
  formFields : JSObject Ref;
  conditionallyRemovedFormFields : JSObject Ref
}.

(** [new FormManager()] *)
Definition new_FormManager : FormManager := mkFormManager [] [] [].

(** The cell behind a reference.  References stored in the tables always
    point into the heap ([wf_step] below), so the default is never read on
    a manager built by the operations. *)
Definition deref (s : FormManager) (r : Ref) : FormField.t :=
  nth r (heap s) (FormField.new "" VUndefined).

Fixpoint update_nth (A : Type) (i : nat) (g : A -> A) (l : list A) {struct l}
    : list A :=
  match l, i with
  | [], _ => []
  | x :: l', O => g x :: l'
  | x :: l', S j => x :: update_nth j g l'
  end.

Definition view (s : FormManager) : FormView :=
  mkFormView (map FormField.view (heap s)) (formFields s)
    (conditionallyRemovedFormFields s).

(** ** Computations *)

(** How a call ends: normally, by a throw, or outside the model. *)
Inductive Completion (A : Type) : Type :=
| Normal (a : A)
| Throw (message : string)
| Unmodelled (why : string).
Arguments Throw {A} message.
Arguments Unmodelled {A} why.

(** The callback evaluations an operation performs. *)
Inductive Evaluation : Type :=
| EvValidate (formField : Ref) (rule : nat) (passed : bool)
| EvIsShowing (name : string) (formField : Ref) (reason : string)
    (result : bool).

Definition M (A : Type) : Type :=
  FormManager -> Completion A * FormManager * list Evaluation.

Definition ret (A : Type) (a : A) : M A := fun s => (Normal a, s, []).

Definition bind (A B : Type) (m : M A) (k : A -> M B) : M B :=
  fun s =>
    match m s with
    | (Normal a, s1, e1) =>
        match k a s1 with (c, s2, e2) => (c, s2, (e1 ++ e2)%list) end
    | (Throw msg, s1, e1) => (Throw msg, s1, e1)
    | (Unmodelled why, s1, e1) => (Unmodelled why, s1, e1)
    end.

Notation "x <- m ;; k" := (bind m (fun x => k))
  (at level 61, m at next level, right associativity).
Notation "m ;;; k" := (bind m (fun _ => k))
  (at level 61, right associativity).

Definition throw (A : Type) (msg : string) : M A := fun s => (Throw msg, s, []).
Arguments throw {A} msg.

(** The call leaves the model here. *)
Definition unmodelled (A : Type) (why : string) : M A :=
  fun s => (Unmodelled why, s, []).
Arguments unmodelled {A} why.

Definition this : M FormManager := fun s => (Normal s, s, []).

Definition observe (e : Evaluation) : M unit := fun s => (Normal tt, s, [e]).

(** [new FormField(...)]: allocate a cell, return its reference. *)
Definition alloc (f : FormField.t) : M Ref :=
  fun s =>
    (Normal (length (heap s)),
     mkFormManager (heap s ++ [f])%list (formFields s)
       (conditionallyRemovedFormFields s), []).

(** Read the object behind [r]. *)
Definition load (r : Ref) : M FormField.t := fun s => (Normal (deref s r), s, []).

(** Assign to members of the object behind [r]. *)
Definition store (r : Ref) (g : FormField.t -> FormField.t) : M unit :=
  fun s =>
    (Normal tt,
     mkFormManager (update_nth r g (heap s)) (formFields s)
       (conditionallyRemovedFormFields s), []).

Definition write_formFields (g : JSObject Ref -> JSObject Ref) : M unit :=
  fun s =>
    (Normal tt,
     mkFormManager (heap s) (g (formFields s))
       (conditionallyRemovedFormFields s), []).

Definition write_conditionallyRemovedFormFields
    (g : JSObject Ref -> JSObject Ref) : M unit :=
  fun s =>
    (Normal tt,
     mkFormManager (heap s) (formFields s)
       (g (conditionallyRemovedFormFields s)), []).

Definition TypeError_undefined : string :=
  "TypeError: Cannot read properties of undefined".

(** Member access on a value that is a field or [undefined]: reading a
    member of [undefined] throws a [TypeError]. *)
Definition member_of (o : option Ref) : M FormField.t :=
  match o with
  | Some r => load r
  | None => throw TypeError_undefined
  end.

Definition writes_Object_prototype : string :=
  "writes a member of an object inherited from Object.prototype".

Definition replaces_prototype : string :=
  "assigns under __proto__: replaces the prototype of the table".

(** [for (let i = 0; i < l.length; i++) body(l[i])] *)
Fixpoint forEach (A : Type) (l : list A) (body : A -> M unit) : M unit :=
  match l with
  | [] => ret tt
  | x :: l' => body x ;;; forEach l' body
  end.

Definition does_not_exist (name : string) : string :=
  name ++ " form field does not exist.".

(** ** FormManager operations *)

(** [addFormField(name, initialValue)] *)
Definition addFormField (name : string) (initialValue : Value) : M Ref :=
  newFormField <- alloc (FormField.new name initialValue) ;;
  (if String.eqb name "__proto__" then unmodelled replaces_prototype
   else write_formFields (set name newFormField)) ;;;
  ret newFormField.

(** [removeFormField(name)] *)
Definition removeFormField (name : string) : M (Lookup Ref) :=
  s <- this ;;
  let formField := read name (formFields s) in
  write_formFields (delete name) ;;;
  ret formField.

(** The loop of [isFormValid]; a [break] leaves it with [false]. *)
Fixpoint isFormValid_loop (names : list string) : M bool :=
  match names with
  | [] => ret true
  | name :: names' =>
      s <- this ;;
      match read name (formFields s) with
      | Own r =>
          formField <- load r ;;
          if negb (FormField.isValid formField) then ret false
          else isFormValid_loop names'
      | Inherited _ => ret false (* its [isValid] is [undefined] *)
      | Undefined => throw TypeError_undefined
      end
  end.

Definition isFormValid : M bool :=
  s <- this ;;
  let names := Object_keys (formFields s) in
  isFormValid_loop names.

Definition getVisibleFormFields : M (JSObject Ref) :=
  s <- this ;; ret (formFields s).

Definition getConditionallyRemovedFormFields : M (JSObject Ref) :=
  s <- this ;; ret (conditionallyRemovedFormFields s).

Definition getVisibleFormFieldByName (name : string) : M (Lookup Ref) :=
  s <- this ;; ret (read name (formFields s)).

(** [Object.values(o)]: the values of the own properties. *)
Definition Object_values (A : Type) (o : JSObject A) : list (option A) :=
  map (fun k => get k o) (Object_keys o).

(** The loop of [getValues].  A field held by a table has the name of its
    key ([stored_under_own_name_calls]), which is never [__proto__], so
    [values[field.name] = field.value] creates or overwrites an own
    property. *)
Fixpoint getValues_loop (fields : list (option Ref)) (values : JSObject Value)
    : M (JSObject Value) :=
  match fields with
  | [] => ret values
  | r :: fields' =>
      field <- member_of r ;;
      getValues_loop fields'
        (set (FormField.name field) (FormField.value field) values)
  end.

Definition getValues : M (JSObject Value) :=
  s <- this ;;
  getValues_loop (Object_values (formFields s)) [].

Record Validity : Type := mkValidity {
  validity_isValid : bool;
  validity_errorMessage : string
}.

(** The loop of [getValidityOfFormField], from rule number [i] on. *)
Fixpoint getValidityOfFormField_loop (formField : Ref) (v : Value) (i : nat)
    (validationRules : list ValidationRule.t) : M Validity :=
  match validationRules with
  | [] => ret (mkValidity true "")
  | rule :: rules' =>
      s <- this ;;
      let rullPassed := ValidationRule.validate rule v (view s) in
      observe (EvValidate formField i rullPassed) ;;;
      if negb rullPassed
      then ret (mkValidity false (ValidationRule.errorMessage rule))
      else getValidityOfFormField_loop formField v (S i) rules'
  end.

Definition getValidityOfFormField (formField : Ref) : M Validity :=
  f <- load formField ;;
  getValidityOfFormField_loop formField (FormField.value f) 0
    (FormField.validationRules f).

Definition runValidations (name : string) : M unit :=
  s <- this ;;
  match read name (formFields s) with
  | Undefined => throw (does_not_exist name)
  | Inherited _ => unmodelled writes_Object_prototype
  | Own control =>
      validityObj <- getValidityOfFormField control ;;
      store control (FormField.set_isValid (validity_isValid validityObj)) ;;;
      store control
        (FormField.set_errorMessage (validity_errorMessage validityObj))
  end.

Definition runConditional (name reasonForRunningConditional : string)
    : M unit :=
  s <- this ;;
  match read name (formFields s),
        read name (conditionallyRemovedFormFields s) with
  | Undefined, Undefined => throw (does_not_exist name)
  | inFormFields, _ =>
      let controlsObjToUse :=
        match inFormFields with
        | Undefined => conditionallyRemovedFormFields s
        | _ => formFields s
        end in
      match read name controlsObjToUse with
      | Undefined => throw TypeError_undefined
      | Inherited _ =>
          (* its [conditional] is [undefined] *)
          throw TypeError_undefined
      | Own formField =>
          f <- load formField ;;
          let conditionalEvent :=
            FormFieldConditionalEvent.mk formField (view s)
              reasonForRunningConditional in
          let isShowing :=
            FormFieldConditional.isShowing (FormField.conditional f)
              conditionalEvent in
          observe (EvIsShowing name formField reasonForRunningConditional
                     isShowing) ;;;
          if isShowing then
            write_formFields (set name formField) ;;;
            write_conditionallyRemovedFormFields (delete name)
          else
            write_conditionallyRemovedFormFields (set name formField) ;;;
            write_formFields (delete name)
      end
  end.

(** The callback of the two [filter] calls: does the field behind [o]
    list [name] among its dependencies? *)
Definition hasDependency (name : string) (o : Lookup Ref) : M bool :=
  match o with
  | Own r =>
      f <- load r ;;
      let index :=
        indexOf name
          (FormFieldConditional.dependencies (FormField.conditional f)) in
      ret (index >? -1)%Z
  | Inherited _ => throw TypeError_undefined
  | Undefined => throw TypeError_undefined
  end.

(** [a.filter(p)] with a callback that reads the manager *)
Fixpoint filterM (A : Type) (p : A -> M bool) (a : list A) : M (list A) :=
  match a with
  | [] => ret []
  | x :: a' =>
      b <- p x ;;
      r <- filterM p a' ;;
      ret (if b then x :: r else r)
  end.

Definition updateFormFieldStateOnValueChange (name : string) (newValue : Value)
    : M unit :=
  s <- this ;;
  match read name (formFields s) with
  | Undefined => throw (does_not_exist name)
  | Inherited _ => unmodelled writes_Object_prototype
  | Own formField =>
      store formField (FormField.set_isTouched true) ;;;
      f <- load formField ;;
      let isSameValue := strict_equal (FormField.value f) newValue in
      if isSameValue then ret tt
      else
        store formField (FormField.set_value newValue) ;;;
        runValidations name ;;;
        s1 <- this ;;
        let namesOfFields := Object_keys (formFields s1) in
        fieldsWithDepsOnField <-
          filterM (fun n => s' <- this ;;
                            hasDependency name (read n (formFields s')))
            namesOfFields ;;
        forEach fieldsWithDepsOnField
          (fun fieldName => runConditional fieldName name) ;;;
        s2 <- this ;;
        let namesOfRemovedFields :=
          Object_keys (conditionallyRemovedFormFields s2) in
        fieldsWithDeps <-
          filterM (fun n => s' <- this ;;
                            hasDependency name
                              (read n (conditionallyRemovedFormFields s')))
            namesOfRemovedFields ;;
        forEach fieldsWithDeps
          (fun fieldName => runConditional fieldName name)
  end.

Definition updateFormFieldStateOnBlur (name : string) : M unit :=
  s <- this ;;
  match read name (formFields s) with
  | Undefined => throw (does_not_exist name)
  | Inherited _ => unmodelled writes_Object_prototype
  | Own formField =>
      store formField (FormField.set_isTouched true) ;;;
      runValidations name
  end.

(** ** Assignments a caller makes through a field reference

    A field gets its rules and its conditional by assignment to the object
    that [addFormField] returned, as in
    [form.get('username').validationRules = [rule]]. *)

Definition assign_validationRules (field : Ref)
    (rules : list ValidationRule.t) : M unit :=
  store field (FormField.set_validationRules rules).

Definition assign_conditional (field : Ref) (c : FormFieldConditional.t)
    : M unit :=
  store field (FormField.set_conditional c).

(** ** Sequences of calls *)

Inductive Call : Type :=
| AddFormField (name : string) (initialValue : Value)
| RemoveFormField (name : string)
| RunValidations (name : string)
| RunConditional (name reason : string)
| UpdateFormFieldStateOnValueChange (name : string) (newValue : Value)
| UpdateFormFieldStateOnBlur (name : string)
| AssignValidationRules (field : Ref) (rules : list ValidationRule.t)
| AssignConditional (field : Ref) (c : FormFieldConditional.t).

Definition state_after (A : Type) (m : M A) (s : FormManager) : FormManager :=
  snd (fst (m s)).

Definition completion_of (A : Type) (m : M A) (s : FormManager)
    : Completion A :=
  fst (fst (m s)).

Definition evaluations_of (A : Type) (m : M A) (s : FormManager)
    : list Evaluation :=
  snd (m s).

(** The manager after one call; a caller that catches a thrown error goes
    on with the manager as the call left it.  After a call that ends
    [Unmodelled] this is the manager at the point where the model stops. *)
Definition call (c : Call) (s : FormManager) : FormManager :=
  match c with
  | AddFormField n v => state_after (addFormField n v) s
  | RemoveFormField n => state_after (removeFormField n) s
  | RunValidations n => state_after (runValidations n) s
  | RunConditional n r => state_after (runConditional n r) s
  | UpdateFormFieldStateOnValueChange n v =>
      state_after (updateFormFieldStateOnValueChange n v) s
  | UpdateFormFieldStateOnBlur n => state_after (updateFormFieldStateOnBlur n) s
  | AssignValidationRules r rules => state_after (assign_validationRules r rules) s
  | AssignConditional r c => state_after (assign_conditional r c) s
  end.

Fixpoint calls (cs : list Call) (s : FormManager) : FormManager :=
  match cs with
  | [] => s
  | c :: cs' => calls cs' (call c s)
  end.

(** * Vocabulary of the properties

    The notions the statements below are written with, and the forms of
    the scenarios they are tried on. *)

(** [m] keeps [R]: the manager [m] leaves behind is related by [R] to the
    one it found. *)
Definition keeps (R : FormManager -> FormManager -> Prop) (A : Type) (m : M A)
    : Prop :=
  forall s, R s (state_after m s).

(** The evaluations of [n] rules that pass, numbered from [i]. *)
Definition passed_events (formField : Ref) (i n : nat) : list Evaluation :=
  map (fun j => EvValidate formField j true) (seq i n).

(** Is [e] an evaluation of the conditional of the field called [name]? *)
Definition is_isShowing_of (name : string) (e : Evaluation) : bool :=
  match e with
  | EvIsShowing n _ _ _ => String.eqb n name
  | EvValidate _ _ _ => false
  end.

(** The evaluations, in [evs], of the conditional of the field called
    [name], in the order they were made. *)
Definition isShowing_evaluations (name : string) (evs : list Evaluation)
    : list Evaluation :=
  filter (is_isShowing_of name) evs.

(** [value.length] of a string, for the two rules of the comment in
    [ValidationRule]. *)
Definition value_length (v : Value) : nat :=
  match v with VString x => String.length x | _ => 0 end.

Definition USERNAME_REQUIRED_RULE : ValidationRule.t :=
  ValidationRule.createRule "REQUIRED" "Username is required."
    (fun value _ => (0 <? value_length value)%nat).

Definition MIN_LENGTH_RULE (controlName : string) (minCharacters : nat)
    (message : string) : ValidationRule.t :=
  ValidationRule.createRule "MIN_LENGTH" message
    (fun controlValue _ => (minCharacters <=? value_length controlValue)%nat).

(** A form with one field, [username], empty, with the two rules in the
    order required, then minimum length. *)
Definition username_form : FormManager :=
  calls [AddFormField "username" (VString "");
         AssignValidationRules 0
           [USERNAME_REQUIRED_RULE;
            MIN_LENGTH_RULE "Username" 3
              "Username should contain at least 3 characters."]]
    new_FormManager.

(** [formFields[name].isValid] *)
Definition valid_at (s : FormManager) (name : string) : bool :=
  match get name (formFields s) with
  | Some r => FormField.isValid (deref s r)
  | None => false
  end.

(** A conditional without dependencies that always answers [false]. *)
Definition never_showing : FormFieldConditional.t :=
  FormFieldConditional.new [] (fun _ => false).

(** A form whose only field, [a], is conditionally removed; the field has
    never been validated, so it is not valid. *)
Definition hidden_form : FormManager :=
  calls [AddFormField "a" (VString "");
         AssignConditional 0 never_showing;
         RunConditional "a" "x"]
    new_FormManager.

(** [controlsObjToUse[name]] when it is a field: the field [formFields]
    has under the name, or, when [this.formFields[name]] is [undefined], the
    one the table of removed fields has.  When [this.formFields[name]] is an
    inherited member of [Object.prototype] no field is selected. *)
Definition selected (s : FormManager) (name : string) : option Ref :=
  match read name (formFields s) with
  | Own r => Some r
  | Inherited _ => None
  | Undefined =>
      match read name (conditionallyRemovedFormFields s) with
      | Own r => Some r
      | _ => None
      end
  end.

(** What [runConditional] throws when it selects no field: the error of
    its guard, or the [TypeError] of reading the conditional of an inherited
    member. *)
Definition runConditional_failure (s : FormManager) (name : string) : string :=
  match read name (formFields s) with
  | Undefined => does_not_exist name
  | _ => TypeError_undefined
  end.

(** [toString] has been added and conditionally removed: it is a key of the
    table of removed fields only. *)
Definition hidden_toString_form : FormManager :=
  calls [AddFormField "toString" (VString "");
         AssignConditional 0 never_showing;
         RunConditional "toString" "x"]
    new_FormManager.


(** No key of the two tables is the name of a member of
    [Object.prototype]. *)
Definition ordinary_keys (s : FormManager) : bool :=
  forallb (fun n => negb (inherited n))
    (own_names (formFields s) ++ own_names (conditionallyRemovedFormFields s)).

(** Has the call left the model? *)
Definition is_unmodelled (A : Type) (c : Completion A) : bool :=
  match c with Unmodelled _ => true | _ => false end.

(** The computation [m], run on [s], ends inside the model. *)
Definition stays (A : Type) (m : M A) (s : FormManager) : Prop :=
  is_unmodelled (completion_of m s) = false.

(** Does the call [c] on [s] end outside the model? *)
Definition leaves_model (c : Call) (s : FormManager) : bool :=
  match c with
  | AddFormField n v => is_unmodelled (completion_of (addFormField n v) s)
  | RemoveFormField n => is_unmodelled (completion_of (removeFormField n) s)
  | RunValidations n => is_unmodelled (completion_of (runValidations n) s)
  | RunConditional n r =>
      is_unmodelled (completion_of (runConditional n r) s)
  | UpdateFormFieldStateOnValueChange n v =>
      is_unmodelled
        (completion_of (updateFormFieldStateOnValueChange n v) s)
  | UpdateFormFieldStateOnBlur n =>
      is_unmodelled (completion_of (updateFormFieldStateOnBlur n) s)
  | AssignValidationRules r rules =>
      is_unmodelled (completion_of (assign_validationRules r rules) s)
  | AssignConditional r c' =>
      is_unmodelled (completion_of (assign_conditional r c') s)
  end.

(** The calls the model covers: every call but [addFormField] under
    [__proto__], and validation, value change and blur of a name that
    [formFields] does not hold but inherits from [Object.prototype]
    ([leaves_model_spec] below). *)
Definition modelled (c : Call) (s : FormManager) : bool :=
  match c with
  | AddFormField n _ => negb (String.eqb n "__proto__")
  | RunValidations n
  | UpdateFormFieldStateOnValueChange n _
  | UpdateFormFieldStateOnBlur n =>
      negb (inherited n && negb (has n (formFields s)))
  | _ => true
  end.

(** Every call of [cs], run from [s], is one the model covers. *)
Fixpoint within_model (cs : list Call) (s : FormManager) : bool :=
  match cs with
  | [] => true
  | c :: cs' => modelled c s && within_model cs' (call c s)
  end.

(** What the conditional of the field behind [r] answers in [s]. *)
Definition isShowing_of (s : FormManager) (reason : string) (r : Ref) : bool :=
  FormFieldConditional.isShowing (FormField.conditional (deref s r))
    (FormFieldConditionalEvent.mk r (view s) reason).

(** The manager once [name] has been filed according to the answer. *)
Definition filed (s : FormManager) (name : string) (r : Ref) (isShowing : bool)
    : FormManager :=
  if isShowing then
    mkFormManager (heap s) (set name r (formFields s))
      (delete name (conditionallyRemovedFormFields s))
  else
    mkFormManager (heap s) (delete name (formFields s))
      (set name r (conditionallyRemovedFormFields s)).

(** The field object behind [r] exists and has [isTouched] set. *)
Definition touched (s : FormManager) (r : Ref) : Prop :=
  exists f, nth_error (heap s) r = Some f /\ FormField.isTouched f = true.

(** Every field object touched in [s] is touched in [s']. *)
Definition touched_stays (s s' : FormManager) : Prop :=
  forall r, touched s r -> touched s' r.

(** A table holds the field object [r] under [name]. *)
Definition held (s : FormManager) (name : string) (r : Ref) : Prop :=
  get name (formFields s) = Some r
  \/ get name (conditionallyRemovedFormFields s) = Some r.

(** What is held under [name] afterwards was held under it before. *)
Definition held_before (name : string) (s s' : FormManager) : Prop :=
  forall r, held s' name r -> held s name r.

(** [username_form] after the user has typed a name. *)
Definition touched_username_form : FormManager :=
  call (UpdateFormFieldStateOnValueChange "username" (VString "bob"))
    username_form.

(** [name] is a key of exactly one of the two tables. *)
Definition in_exactly_one (s : FormManager) (name : string) : bool :=
  xorb (has name (formFields s)) (has name (conditionallyRemovedFormFields s)).

(** Has [name] been added and not removed since?  [b] is the answer before
    the calls [cs]. *)
Fixpoint added_and_not_removed (b : bool) (name : string) (cs : list Call)
    : bool :=
  match cs with
  | [] => b
  | AddFormField n _ :: cs' =>
      added_and_not_removed (b || String.eqb n name) name cs'
  | RemoveFormField n :: cs' =>
      added_and_not_removed (b && negb (String.eqb n name)) name cs'
  | _ :: cs' => added_and_not_removed b name cs'
  end.

(** No call of [cs], run from [s], adds [name] while the table of
    conditionally removed fields holds that name. *)
Fixpoint never_added_while_removed (name : string) (cs : list Call)
    (s : FormManager) : bool :=
  match cs with
  | [] => true
  | c :: cs' =>
      match c with
      | AddFormField n _ =>
          negb (String.eqb n name && has name (conditionallyRemovedFormFields s))
      | _ => true
      end && never_added_while_removed name cs' (call c s)
  end.

(** If [name] is in exactly one table in [s], so it is in [s']. *)
Definition stays_in_exactly_one (name : string) (s s' : FormManager) : Prop :=
  in_exactly_one s name = true -> in_exactly_one s' name = true.

(** The calls of the counterexample: [a] is added, hidden by its
    conditional, and added again. *)
Definition add_hide_add : list Call :=
  [AddFormField "a" (VString "");
   AssignConditional 0 never_showing;
   RunConditional "a" "x";
   AddFormField "a" (VString "")].

(** [a] is added and hidden, then made to depend on [b] and shown again by
    a change of [b]. *)
Definition add_hide_show : list Call :=
  [AddFormField "a" (VString "");
   AssignConditional 0 never_showing;
   RunConditional "a" "x";
   AddFormField "b" (VString "");
   UpdateFormFieldStateOnValueChange "b" (VString "1");
   AssignConditional 0 (FormFieldConditional.new ["b"] (fun _ => true));
   UpdateFormFieldStateOnValueChange "b" (VString "2")].

(** Does the field behind [r] list [name] among its dependencies? *)
Definition depends_on (s : FormManager) (name : string) (r : Ref) : bool :=
  (indexOf name
     (FormFieldConditional.dependencies (FormField.conditional (deref s r)))
   >? -1)%Z.

(** The names of [table] whose field depends on [name]. *)
Definition dependents (table : FormManager -> JSObject Ref) (s : FormManager)
    (name : string) : list string :=
  filter (fun n => match get n (table s) with
                   | Some r => depends_on s name r
                   | None => false
                   end)
    (Object_keys (table s)).

(** The part of [updateFormFieldStateOnValueChange] that follows
    [runValidations]. *)
Definition propagation (name : string) : M unit :=
  s1 <- this ;;
  let namesOfFields := Object_keys (formFields s1) in
  fieldsWithDepsOnField <-
    filterM (fun n => s' <- this ;;
                      hasDependency name (read n (formFields s')))
      namesOfFields ;;
  forEach fieldsWithDepsOnField
    (fun fieldName => runConditional fieldName name) ;;;
  s2 <- this ;;
  let namesOfRemovedFields :=
    Object_keys (conditionallyRemovedFormFields s2) in
  fieldsWithDeps <-
    filterM (fun n => s' <- this ;;
                      hasDependency name
                        (read n (conditionallyRemovedFormFields s')))
      namesOfRemovedFields ;;
  forEach fieldsWithDeps
    (fun fieldName => runConditional fieldName name).

(** How the two passes of a value change of [name], run on [s], treat the
    fields held under each key [n]; [evs] are the evaluations made and [s']
    is the manager left behind.
    - A dependent held by [formFields] is evaluated once when its conditional
      answers [true], and once more, by the second pass, when it answers
      [false].
    - A dependent held by the table of removed fields, under a name that is
      not a key of [formFields], is evaluated once.
    - When [n] is a key of both tables and only the removed field depends on
      [name], the second pass runs the conditional of the field of
      [formFields] instead, once, and files that one: the removed dependent
      is not evaluated and is afterwards in neither table.
    - A name none of whose fields depends on [name] is not evaluated and
      keeps its entries. *)
Definition propagated (name : string) (s s' : FormManager)
    (evs : list Evaluation) : Prop :=
  (forall n r,
      get n (formFields s) = Some r ->
      depends_on s name r = true ->
      (isShowing_evaluations n evs = [EvIsShowing n r name true]
       /\ get n (formFields s') = Some r
       /\ get n (conditionallyRemovedFormFields s') = None)
      \/ exists b : bool,
           isShowing_evaluations n evs =
             [EvIsShowing n r name false; EvIsShowing n r name b]
           /\ get n (formFields s') = (if b then Some r else None)
           /\ get n (conditionallyRemovedFormFields s')
              = (if b then None else Some r))
  /\ (forall n r,
         get n (formFields s) = None ->
         get n (conditionallyRemovedFormFields s) = Some r ->
         depends_on s name r = true ->
         exists b : bool,
           isShowing_evaluations n evs = [EvIsShowing n r name b]
           /\ get n (formFields s') = (if b then Some r else None)
           /\ get n (conditionallyRemovedFormFields s')
              = (if b then None else Some r))
  /\ (forall n ra rr,
         get n (formFields s) = Some ra ->
         depends_on s name ra = false ->
         get n (conditionallyRemovedFormFields s) = Some rr ->
         depends_on s name rr = true ->
         exists b : bool,
           isShowing_evaluations n evs = [EvIsShowing n ra name b]
           /\ get n (formFields s') = (if b then Some ra else None)
           /\ get n (conditionallyRemovedFormFields s')
              = (if b then None else Some ra))
  /\ (forall n,
         (forall r, held s n r -> depends_on s name r = false) ->
         get n (formFields s') = get n (formFields s)
         /\ get n (conditionallyRemovedFormFields s')
            = get n (conditionallyRemovedFormFields s)
         /\ isShowing_evaluations n evs = []).

(** The representation invariant of the two tables: an object has each of
    its own property names once. *)
Definition nodup_tables (s : FormManager) : Prop :=
  NoDup (own_names (formFields s))
  /\ NoDup (own_names (conditionallyRemovedFormFields s)).

(** If the tables of [s] have no repeated name, those of [s'] have none. *)
Definition nodup_tables_stay (s s' : FormManager) : Prop :=
  nodup_tables s -> nodup_tables s'.

(** The references of the tables point into the heap. *)
Definition refs_in_heap (s : FormManager) : Prop :=
  forall n r,
    get n (formFields s) = Some r
    \/ get n (conditionallyRemovedFormFields s) = Some r ->
    r < length (heap s).

(** If the references of [s] point into its heap, so do those of [s']. *)
Definition refs_in_heap_stay (s s' : FormManager) : Prop :=
  refs_in_heap s -> refs_in_heap s'.

(** [B] is in [formFields], depends on [A], and its conditional answers
    [false]. *)
Definition fan_out_form : FormManager :=
  calls [AddFormField "A" (VString "");
         AddFormField "B" (VString "");
         AssignConditional 1 (FormFieldConditional.new ["A"] (fun _ => false))]
    new_FormManager.

(** [A -> B -> C]: [B] depends on [A] and is hidden by a change of [A];
    [C] depends on [B]. *)
Definition chain_form : FormManager :=
  calls [AddFormField "A" (VString "");
         AddFormField "B" (VString "");
         AddFormField "C" (VString "");
         AssignConditional 1 (FormFieldConditional.new ["A"] (fun _ => false));
         AssignConditional 2 (FormFieldConditional.new ["B"] (fun _ => false))]
    new_FormManager.

(** [C] is a key of both tables.  The field first added under it depends
    on [A] and has been hidden by its conditional; the field added under it
    afterwards, which [formFields] holds, depends on [B] only.  [B] depends
    on [A]. *)
Definition doubled_chain_form : FormManager :=
  calls [AddFormField "A" (VString "");
         AddFormField "B" (VString "");
         AddFormField "C" (VString "");
         AssignConditional 1 (FormFieldConditional.new ["A"] (fun _ => true));
         AssignConditional 2 (FormFieldConditional.new ["A"] (fun _ => false));
         RunConditional "C" "x";
         AddFormField "C" (VString "");
         AssignConditional 3 (FormFieldConditional.new ["B"] (fun _ => true))]
    new_FormManager.

(** The scenario of the spec: [state] is shown while [country] is ["US"]. *)
Definition country_is_US (e : FormFieldConditionalEvent.t) : bool :=
  let form := FormFieldConditionalEvent.form e in
  match get "country" (view_formFields form) with
  | Some r =>
      match nth_error (view_heap form) r with
      | Some country => strict_equal (view_value country) (VString "US")
      | None => false
      end
  | None => false
  end.

Definition country_state_form : FormManager :=
  calls [AddFormField "country" (VString "");
         AddFormField "state" (VString "");
         AssignConditional 1 (FormFieldConditional.new ["country"] country_is_US)]
    new_FormManager.

(** [name] is a key of one of the two tables. *)
Definition present (s : FormManager) (name : string) : bool :=
  has name (formFields s) || has name (conditionallyRemovedFormFields s).

(** The first rule of [rules] that fails on [v], if any. *)
Definition first_failing (s : FormManager) (v : Value)
    (rules : list ValidationRule.t) : option ValidationRule.t :=
  find (fun q => negb (ValidationRule.validate q v (view s))) rules.

(** The validity object for a first failing rule, or for none. *)
Definition validity_of (failing : option ValidationRule.t) : Validity :=
  match failing with
  | Some rule => mkValidity false (ValidationRule.errorMessage rule)
  | None => mkValidity true ""
  end.

(** Every field object of [s] is still in [s'], related to what it was by
    [Q]. *)
Definition cells_related (Q : FormField.t -> FormField.t -> Prop)
    (s s' : FormManager) : Prop :=
  forall r f,
    nth_error (heap s) r = Some f ->
    exists f', nth_error (heap s') r = Some f' /\ Q f f'.

(** [f'] has the name of [f]. *)
Definition same_name (f f' : FormField.t) : Prop :=
  FormField.name f' = FormField.name f.

(** [f'] has the name, the rules, the conditional, the context and the
    [isShowing] flag of [f]. *)
Definition same_configuration (f f' : FormField.t) : Prop :=
  FormField.name f' = FormField.name f
  /\ FormField.validationRules f' = FormField.validationRules f
  /\ FormField.conditional f' = FormField.conditional f
  /\ FormField.context f' = FormField.context f
  /\ FormField.isShowing f' = FormField.isShowing f.

(** Is [c] an assignment made by the caller rather than a method call? *)
Definition is_assignment (c : Call) : bool :=
  match c with
  | AssignValidationRules _ _ | AssignConditional _ _ => true
  | _ => false
  end.

(** Every reference a table holds under a name points to a field object
    with that name. *)
Definition stored_under_own_name (s : FormManager) : Prop :=
  forall n r,
    held s n r ->
    exists f, nth_error (heap s) r = Some f /\ FormField.name f = n.


(** [a] has been added, hidden, and its conditional assigned; the
    conditional has not run since. *)
Definition configured_form : FormManager :=
  calls [AddFormField "a" (VString "");
         AssignConditional 0 never_showing]
    new_FormManager.


(** [name] is in a table of [s'] exactly when it is in a table of [s]. *)
Definition present_same (name : string) (s s' : FormManager) : Prop :=
  present s' name = present s name.

(** [a] is a key of both tables: it was added, hidden, and added again. *)
Definition doubled_form : FormManager := calls add_hide_add new_FormManager.

(** [s'] has the heap of [s]. *)
Definition heap_same (s s' : FormManager) : Prop := heap s' = heap s.

(** * Properties *)

(** ** Tables *)

Section TableFacts.
Variable A : Type.
Implicit Types (o : JSObject A) (k : string) (v : A).

Lemma get_set_same k v o : get k (set k v o) = Some v.
Proof.
  induction o as [|[k' v'] o IH]; simpl.
  - now rewrite String.eqb_refl.
  - destruct (String.eqb k k') eqn:E; simpl; rewrite E; auto.
Qed.

Lemma get_set_other k k' v o : k <> k' -> get k' (set k v o) = get k' o.
Proof.
  intros Hne. induction o as [|[k0 v0] o IH]; simpl.
  - destruct (String.eqb k' k) eqn:E; auto.
    apply String.eqb_eq in E. congruence.
  - destruct (String.eqb k k0) eqn:E; simpl.
    + apply String.eqb_eq in E. subst k0.
      destruct (String.eqb k' k) eqn:E'; auto.
      apply String.eqb_eq in E'. congruence.
    + now rewrite IH.
Qed.

Lemma get_delete_same k o : get k (delete k o) = None.
Proof.
  induction o as [|[k' v'] o IH]; simpl; auto.
  destruct (String.eqb k k') eqn:E; simpl; auto. now rewrite E.
Qed.

Lemma get_delete_other k k' o : k <> k' -> get k' (delete k o) = get k' o.
Proof.
  intros Hne. induction o as [|[k0 v0] o IH]; simpl; auto.
  destruct (String.eqb k k0) eqn:E; simpl.
  - apply String.eqb_eq in E. subst k0.
    destruct (String.eqb k' k) eqn:E'; auto.
    apply String.eqb_eq in E'. congruence.
  - now rewrite IH.
Qed.


(** Deleting a property that is not there changes nothing. *)
Lemma delete_absent k o : get k o = None -> delete k o = o.
Proof.
  induction o as [|[k' v'] o IH]; simpl; auto.
  destruct (String.eqb k k') eqn:E; intros H; [discriminate|].
  now rewrite IH.
Qed.

Lemma In_own_names k o : In k (own_names o) <-> get k o <> None.
Proof.
  induction o as [|[k' v'] o IH]; simpl.
  - split; [tauto | congruence].
  - destruct (String.eqb k k') eqn:E.
    + apply String.eqb_eq in E. subst. split; [discriminate | auto].
    + apply String.eqb_neq in E. rewrite <- IH. split; [|tauto].
      intros [H|H]; [congruence | assumption].
Qed.

Lemma own_names_delete k k' o :
  In k' (own_names (delete k o)) -> In k' (own_names o).
Proof.
  induction o as [|[k0 v0] o IH]; simpl; auto.
  destruct (String.eqb k k0); simpl; tauto.
Qed.

Lemma NoDup_delete k o : NoDup (own_names o) -> NoDup (own_names (delete k o)).
Proof.
  induction o as [|[k0 v0] o IH]; simpl; auto.
  intros H. inversion H; subst.
  destruct (String.eqb k k0); simpl; auto.
  constructor; auto. intros Hin. now apply own_names_delete in Hin.
Qed.

Lemma own_names_set k k' v o :
  In k' (own_names (set k v o)) -> k' = k \/ In k' (own_names o).
Proof.
  induction o as [|[k0 v0] o IH]; simpl.
  - intuition.
  - destruct (String.eqb k k0); simpl; tauto.
Qed.

Lemma NoDup_set k v o : NoDup (own_names o) -> NoDup (own_names (set k v o)).
Proof.
  induction o as [|[k0 v0] o IH]; simpl.
  - intros _. constructor; [tauto | constructor].
  - intros H. inversion H; subst.
    destruct (String.eqb k k0) eqn:E; simpl.
    + constructor; auto.
    + constructor; auto. intros Hin.
      apply own_names_set in Hin. destruct Hin as [->|Hin]; auto.
      now rewrite String.eqb_refl in E.
Qed.
End TableFacts.

(** *** Lookups through [Object.prototype] *)

Lemma read_own (A : Type) k (v : A) o : get k o = Some v -> read k o = Own v.
Proof. intros H. unfold read. now rewrite H. Qed.

Lemma read_ordinary (A : Type) k (o : JSObject A) :
  inherited k = false ->
  read k o = match get k o with Some v => Own v | None => Undefined end.
Proof. intros H. unfold read. now rewrite H. Qed.

Lemma read_inherited (A : Type) k (o : JSObject A) :
  inherited k = true -> get k o = None -> read k o = Inherited k.
Proof. intros H Hget. unfold read. now rewrite Hget, H. Qed.

Lemma read_Own_inv (A : Type) k (v : A) o : read k o = Own v -> get k o = Some v.
Proof.
  unfold read. destruct (get k o); [congruence|].
  destruct (inherited k); discriminate.
Qed.

Lemma get_set_inv (A : Type) k k' (v v' : A) o :
  get k' (set k v o) = Some v' -> v' = v \/ get k' o = Some v'.
Proof.
  destruct (string_dec k k') as [->|Hne].
  - rewrite get_set_same. intros [= ->]. now left.
  - rewrite get_set_other by assumption. now right.
Qed.

Lemma get_delete_inv (A : Type) k k' (v' : A) o :
  get k' (delete k o) = Some v' -> get k' o = Some v'.
Proof.
  destruct (string_dec k k') as [->|Hne].
  - now rewrite get_delete_same.
  - now rewrite get_delete_other.
Qed.

(** *** [Object.keys] lists every own name once *)

Lemma insert_by_index_perm k l : Permutation (k :: l) (insert_by_index k l).
Proof.
  induction l as [|k' l IH]; simpl; auto.
  destruct (index_of_key k <=? index_of_key k')%N; auto.
  rewrite perm_swap. now constructor.
Qed.

Lemma sort_by_index_perm l : Permutation l (sort_by_index l).
Proof.
  induction l as [|k l IH]; simpl; auto.
  rewrite <- insert_by_index_perm. now constructor.
Qed.

Lemma filter_split_perm (p : string -> bool) l :
  Permutation l (filter p l ++ filter (fun k => negb (p k)) l).
Proof.
  induction l as [|k l IH]; simpl; auto.
  destruct (p k); simpl.
  - now constructor.
  - now apply Permutation_cons_app.
Qed.

Lemma Object_keys_perm (A : Type) (o : JSObject A) :
  Permutation (own_names o) (Object_keys o).
Proof.
  unfold Object_keys.
  rewrite <- sort_by_index_perm. apply filter_split_perm.
Qed.

Lemma In_Object_keys (A : Type) (o : JSObject A) k :
  In k (Object_keys o) <-> get k o <> None.
Proof.
  rewrite <- In_own_names. split; apply Permutation_in.
  - symmetry. apply Object_keys_perm.
  - apply Object_keys_perm.
Qed.

Lemma NoDup_Object_keys (A : Type) (o : JSObject A) :
  NoDup (own_names o) -> NoDup (Object_keys o).
Proof.
  intros H. eapply Permutation_NoDup; [apply Object_keys_perm | exact H].
Qed.

Lemma indexOf_from_In x a i :
  (0 <= i)%Z -> ((indexOf_from i x a >? -1)%Z = true <-> In x a).
Proof.
  revert i. induction a as [|y a IH]; simpl; intros i Hi.
  - split; [discriminate | tauto].
  - destruct (String.eqb y x) eqn:E.
    + apply String.eqb_eq in E. split; auto. intros _.
      apply Z.gtb_lt. lia.
    + apply String.eqb_neq in E. rewrite IH by lia.
      split; [tauto | intros [H|H]; [congruence | assumption]].
Qed.

Lemma indexOf_In x a : (indexOf x a >? -1)%Z = true <-> In x a.
Proof. apply indexOf_from_In. lia. Qed.

(** ** Heap cells *)

Lemma nth_error_update_nth_same (A : Type) (g : A -> A) l i :
  nth_error (update_nth i g l) i = option_map g (nth_error l i).
Proof.
  revert i. induction l as [|x l IH]; intros [|i]; simpl; auto.
Qed.

Lemma nth_error_update_nth_other (A : Type) (g : A -> A) l i j :
  i <> j -> nth_error (update_nth i g l) j = nth_error l j.
Proof.
  revert i j. induction l as [|x l IH]; intros [|i] [|j] H; simpl; auto.
  congruence.
Qed.

Lemma length_update_nth (A : Type) (g : A -> A) l i :
  length (update_nth i g l) = length l.
Proof.
  revert i. induction l as [|x l IH]; intros [|i]; simpl; auto.
Qed.

Lemma nth_update_nth (A : Type) (g : A -> A) l i j d :
  nth j (update_nth i g l) d =
  if Nat.eqb i j && Nat.ltb i (length l) then g (nth j l d) else nth j l d.
Proof.
  revert i j. induction l as [|x l IH]; intros i j.
  - simpl. rewrite andb_false_r. reflexivity.
  - destruct i as [|i], j as [|j]; simpl; auto.
Qed.

Lemma nth_error_nth (A : Type) (l : list A) i x d :
  nth_error l i = Some x -> nth i l d = x.
Proof.
  revert i. induction l as [|y l IH]; intros [|i]; simpl; try discriminate.
  - congruence.
  - apply IH.
Qed.

(** ** Computations that keep a relation between the manager before and after *)

Section Keeps.
Variable R : FormManager -> FormManager -> Prop.
Hypothesis R_refl : forall s, R s s.
Hypothesis R_trans : forall s1 s2 s3, R s1 s2 -> R s2 s3 -> R s1 s3.

Lemma keeps_ret (A : Type) (a : A) : keeps R (ret a).
Proof. intros s. apply R_refl. Qed.

Lemma keeps_throw (A : Type) msg : keeps R (@throw A msg).
Proof. intros s. apply R_refl. Qed.

Lemma keeps_unmodelled (A : Type) why : keeps R (@unmodelled A why).
Proof. intros s. apply R_refl. Qed.

Lemma keeps_this : keeps R this.
Proof. intros s. apply R_refl. Qed.

Lemma keeps_observe e : keeps R (observe e).
Proof. intros s. apply R_refl. Qed.

Lemma keeps_load r : keeps R (load r).
Proof. intros s. apply R_refl. Qed.

Lemma keeps_bind (A B : Type) (m : M A) (k : A -> M B) :
  keeps R m -> (forall a, keeps R (k a)) -> keeps R (bind m k).
Proof.
  intros Hm Hk s. unfold state_after, bind.
  specialize (Hm s). unfold state_after in Hm.
  destruct (m s) as [[[a|msg|why] s1] e1]; simpl in *; auto.
  specialize (Hk a s1). unfold state_after in Hk.
  destruct (k a s1) as [[c s2] e2]; simpl in *. eauto.
Qed.

Lemma keeps_member_of o : keeps R (member_of o).
Proof. destruct o; [apply keeps_load | apply keeps_throw]. Qed.

Lemma keeps_forEach (A : Type) (l : list A) body :
  (forall x, keeps R (body x)) -> keeps R (forEach l body).
Proof.
  intros Hb. induction l as [|x l IH]; simpl.
  - apply keeps_ret.
  - apply keeps_bind; auto.
Qed.

Lemma keeps_filterM (A : Type) (p : A -> M bool) (l : list A) :
  (forall x, keeps R (p x)) -> keeps R (filterM p l).
Proof.
  intros Hp. induction l as [|x l IH]; simpl.
  - apply keeps_ret.
  - apply keeps_bind; auto. intros b.
    apply keeps_bind; auto.
Qed.

Lemma keeps_getValidityOfFormField_loop r v rules i :
  keeps R (getValidityOfFormField_loop r v i rules).
Proof.
  revert i. induction rules as [|rule rules IH]; intros i; simpl.
  - apply keeps_ret.
  - apply keeps_bind; [apply keeps_this|]. intros s.
    apply keeps_bind; [apply keeps_observe|]. intros _.
    destruct (negb _); [apply keeps_ret | apply IH].
Qed.

Lemma keeps_getValidityOfFormField r : keeps R (getValidityOfFormField r).
Proof.
  unfold getValidityOfFormField. apply keeps_bind; [apply keeps_load|].
  intros f. apply keeps_getValidityOfFormField_loop.
Qed.

Lemma keeps_hasDependency name o : keeps R (hasDependency name o).
Proof.
  destruct o; simpl; [|apply keeps_throw|apply keeps_throw].
  apply keeps_bind; [apply keeps_load|]. intros f. apply keeps_ret.
Qed.

(** The operations, from what their writes keep. *)
Hypothesis keeps_store_isValid :
  forall r b, keeps R (store r (FormField.set_isValid b)).
Hypothesis keeps_store_errorMessage :
  forall r m, keeps R (store r (FormField.set_errorMessage m)).
Hypothesis keeps_store_isTouched :
  forall r, keeps R (store r (FormField.set_isTouched true)).
Hypothesis keeps_store_value :
  forall r v, keeps R (store r (FormField.set_value v)).
Hypothesis keeps_runConditional :
  forall n reason, keeps R (runConditional n reason).

Lemma keeps_runValidations name : keeps R (runValidations name).
Proof.
  unfold runValidations. apply keeps_bind; [apply keeps_this|]. intros s.
  destruct (read name (formFields s)) as [formField|k|];
    [|apply keeps_unmodelled|apply keeps_throw].
  apply keeps_bind; [apply keeps_getValidityOfFormField|]. intros v.
  apply keeps_bind; auto.
Qed.

Lemma keeps_updateFormFieldStateOnBlur name :
  keeps R (updateFormFieldStateOnBlur name).
Proof.
  unfold updateFormFieldStateOnBlur.
  apply keeps_bind; [apply keeps_this|]. intros s.
  destruct (read name (formFields s)) as [formField|k|];
    [|apply keeps_unmodelled|apply keeps_throw].
  apply keeps_bind; auto. intros _. apply keeps_runValidations.
Qed.

Lemma keeps_updateFormFieldStateOnValueChange name v :
  keeps R (updateFormFieldStateOnValueChange name v).
Proof.
  unfold updateFormFieldStateOnValueChange.
  apply keeps_bind; [apply keeps_this|]. intros s.
  destruct (read name (formFields s)) as [formField|k|];
    [|apply keeps_unmodelled|apply keeps_throw].
  apply keeps_bind; auto. intros _.
  apply keeps_bind; [apply keeps_load|]. intros f.
  destruct (strict_equal _ _); [apply keeps_ret|].
  apply keeps_bind; auto. intros _.
  apply keeps_bind; [apply keeps_runValidations|]. intros _.
  apply keeps_bind; [apply keeps_this|]. intros s1.
  apply keeps_bind.
  { apply keeps_filterM. intros n. apply keeps_bind; [apply keeps_this|].
    intros s'. apply keeps_hasDependency. }
  intros l1. apply keeps_bind; [now apply keeps_forEach|]. intros _.
  apply keeps_bind; [apply keeps_this|]. intros s2.
  apply keeps_bind.
  { apply keeps_filterM. intros n. apply keeps_bind; [apply keeps_this|].
    intros s'. apply keeps_hasDependency. }
  intros l2. now apply keeps_forEach.
Qed.
End Keeps.

Ltac unfold_monad :=
  unfold bind, this, ret, throw, load, store, observe, alloc, member_of,
    write_formFields, write_conditionallyRemovedFormFields,
    state_after, completion_of, evaluations_of in *.

(** ** Validation *)

Lemma isShowing_evaluations_app name e1 e2 :
  isShowing_evaluations name (e1 ++ e2)%list =
  (isShowing_evaluations name e1 ++ isShowing_evaluations name e2)%list.
Proof. apply filter_app. Qed.

Lemma isShowing_evaluations_passed_events name r i n :
  isShowing_evaluations name (passed_events r i n) = [].
Proof.
  unfold passed_events. revert i. induction n as [|n IH]; intros i; simpl; auto.
Qed.

Lemma getValidityOfFormField_loop_fails formField v s pre rule post i :
  forallb (fun q => ValidationRule.validate q v (view s)) pre = true ->
  ValidationRule.validate rule v (view s) = false ->
  getValidityOfFormField_loop formField v i (pre ++ rule :: post) s =
    (Normal (mkValidity false (ValidationRule.errorMessage rule)), s,
     passed_events formField i (length pre)
       ++ [EvValidate formField (i + length pre) false])%list.
Proof.
  revert i. induction pre as [|q pre IH]; intros i Hpre Hrule; simpl.
  - unfold_monad. rewrite Hrule. simpl. now rewrite Nat.add_0_r.
  - simpl in Hpre. apply andb_true_iff in Hpre. destruct Hpre as [Hq Hpre].
    unfold bind at 1. unfold this at 1. unfold bind at 1. unfold observe at 1.
    rewrite Hq. simpl. rewrite (IH (S i) Hpre Hrule).
    unfold passed_events. simpl. now rewrite Nat.add_succ_r.
Qed.

Lemma getValidityOfFormField_loop_passes formField v s rules i :
  forallb (fun q => ValidationRule.validate q v (view s)) rules = true ->
  getValidityOfFormField_loop formField v i rules s =
    (Normal (mkValidity true ""), s,
     passed_events formField i (length rules)).
Proof.
  revert i. induction rules as [|q rules IH]; intros i Hall; simpl.
  - reflexivity.
  - simpl in Hall. apply andb_true_iff in Hall. destruct Hall as [Hq Hall].
    unfold bind at 1. unfold this at 1. unfold bind at 1. unfold observe at 1.
    rewrite Hq. simpl. now rewrite (IH (S i) Hall).
Qed.

(** Every list of rules either has a first failing rule or passes whole. *)
Lemma first_failure_or_all_pass (p : ValidationRule.t -> bool) rules :
  (exists pre rule post,
      rules = (pre ++ rule :: post)%list /\ forallb p pre = true
      /\ p rule = false)
  \/ forallb p rules = true.
Proof.
  induction rules as [|q rules IH]; simpl; auto.
  destruct (p q) eqn:E.
  - destruct IH as [(pre & rule & post & -> & Hpre & Hrule)|Hall]; auto.
    left. exists (q :: pre), rule, post. simpl. now rewrite E.
  - left. exists [], q, rules. auto.
Qed.

(** C6.  Field validity evaluation goes through the rules of the field in
    declaration order.  When some rule fails, the result is not valid and
    carries the message of the first failing rule; the rules before it were
    each evaluated once and passed, and no rule after it is evaluated.  When
    every rule passes, and so when there is no rule, the result is valid with
    the empty message.  The manager is left as it was. *)
Theorem getValidityOfFormField_first_failing_rule (s : FormManager) (r : Ref) :
  let f := deref s r in
  let passes := fun q => ValidationRule.validate q (FormField.value f) (view s) in
  (forall pre rule post,
      FormField.validationRules f = (pre ++ rule :: post)%list ->
      forallb passes pre = true ->
      passes rule = false ->
      getValidityOfFormField r s =
        (Normal (mkValidity false (ValidationRule.errorMessage rule)), s,
         passed_events r 0 (length pre) ++ [EvValidate r (length pre) false])%list)
  /\ (forallb passes (FormField.validationRules f) = true ->
      getValidityOfFormField r s =
        (Normal (mkValidity true ""), s,
         passed_events r 0 (length (FormField.validationRules f)))).
Proof.
  intros f passes. split.
  - intros pre rule post Hrules Hpre Hrule.
    unfold getValidityOfFormField, bind, load. fold f. rewrite Hrules.
    rewrite (getValidityOfFormField_loop_fails r _ s pre rule post 0 Hpre Hrule).
    reflexivity.
  - intros Hall.
    unfold getValidityOfFormField, bind, load. fold f.
    rewrite (getValidityOfFormField_loop_passes r _ s _ 0 Hall).
    reflexivity.
Qed.

Lemma getValidityOfFormField_first_failing_rule_witness :
  getValidityOfFormField 0 username_form =
    (Normal (mkValidity false "Username is required."), username_form,
     [EvValidate 0 0 false]).
Proof.
  apply (proj1 (getValidityOfFormField_first_failing_rule username_form 0)
           [] USERNAME_REQUIRED_RULE
           [MIN_LENGTH_RULE "Username" 3
              "Username should contain at least 3 characters."]);
    reflexivity.
Defined.

(** What [runValidations] writes on the field it finds. *)
Lemma runValidations_spec s name r :
  get name (formFields s) = Some r ->
  exists validityObj evs,
    getValidityOfFormField r s = (Normal validityObj, s, evs) /\
    (forall n, isShowing_evaluations n evs = []) /\
    runValidations name s =
      (Normal tt,
       mkFormManager
         (update_nth r
            (FormField.set_errorMessage (validity_errorMessage validityObj))
            (update_nth r
               (FormField.set_isValid (validity_isValid validityObj)) (heap s)))
         (formFields s) (conditionallyRemovedFormFields s),
       evs).
Proof.
  intros Hget.
  set (p := fun q => ValidationRule.validate q (FormField.value (deref s r)) (view s)).
  assert (Hv : exists validityObj evs,
             getValidityOfFormField r s = (Normal validityObj, s, evs)
             /\ forall n, isShowing_evaluations n evs = []).
  { unfold getValidityOfFormField, bind, load.
    destruct (first_failure_or_all_pass p (FormField.validationRules (deref s r)))
      as [(pre & rule & post & Hrules & Hpre & Hrule)|Hall].
    - rewrite Hrules.
      rewrite (getValidityOfFormField_loop_fails r _ s pre rule post 0 Hpre Hrule).
      eexists _, _. split; [reflexivity|]. intros n. simpl.
      rewrite isShowing_evaluations_app, isShowing_evaluations_passed_events.
      reflexivity.
    - rewrite (getValidityOfFormField_loop_passes r _ s _ 0 Hall).
      eexists _, _. split; [reflexivity|]. intros n. simpl.
      apply isShowing_evaluations_passed_events. }
  destruct Hv as (validityObj & evs & Hv & Hevs).
  exists validityObj, evs. split; [exact Hv|]. split; [exact Hevs|].
  unfold runValidations. unfold bind at 1. unfold this at 1.
  rewrite (@read_own _ _ _ _ Hget). unfold bind at 1. rewrite Hv.
  unfold_monad. simpl. now rewrite app_nil_r.
Qed.

(** ** Form validity *)

Lemma isFormValid_loop_spec s names :
  (forall n, In n names -> get n (formFields s) <> None) ->
  isFormValid_loop names s = (Normal (forallb (valid_at s) names), s, []).
Proof.
  induction names as [|n names IH]; intros Hin; simpl; auto.
  unfold bind at 1. unfold this at 1. unfold valid_at at 1.
  destruct (get n (formFields s)) as [r|] eqn:E.
  - rewrite (@read_own _ _ _ _ E). unfold bind at 1. unfold load.
    destruct (FormField.isValid (deref s r)); simpl.
    + rewrite IH; auto. intros m Hm. apply Hin. now right.
    + reflexivity.
  - exfalso. apply (Hin n); auto. now left.
Qed.

Lemma isFormValid_spec s :
  isFormValid s =
    (Normal (forallb (valid_at s) (Object_keys (formFields s))), s, []).
Proof.
  unfold isFormValid. unfold bind at 1. unfold this at 1.
  rewrite isFormValid_loop_spec; auto.
  intros n Hn. now apply In_Object_keys.
Qed.

(** C7.  [isFormValid()] returns [true] exactly when every field of
    [formFields] has [isValid] set; it leaves the manager as it was, and
    the table of conditionally removed fields plays no part in the answer:
    the answer is the same whatever that table holds. *)
Theorem isFormValid_iff_every_active_field_valid (s : FormManager) :
  exists b,
    isFormValid s = (Normal b, s, []) /\
    (b = true <->
     forall name r, get name (formFields s) = Some r ->
                    FormField.isValid (deref s r) = true) /\
    (forall removed,
        completion_of isFormValid
          (mkFormManager (heap s) (formFields s) removed) = Normal b).
Proof.
  exists (forallb (valid_at s) (Object_keys (formFields s))).
  split; [apply isFormValid_spec|]. split.
  - rewrite forallb_forall. split.
    + intros H name r Hget.
      assert (Hin : In name (Object_keys (formFields s))).
      { apply In_Object_keys. congruence. }
      specialize (H name Hin). unfold valid_at in H. now rewrite Hget in H.
    + intros H name Hin. apply In_Object_keys in Hin. unfold valid_at.
      destruct (get name (formFields s)) as [r|] eqn:E; [eauto | congruence].
  - intros removed. unfold completion_of. now rewrite isFormValid_spec.
Qed.

(** C10.  With no field in [formFields], because none was added or because
    every field is conditionally removed or was removed, [isFormValid()]
    returns [true] and leaves the manager as it was, whatever the heap and
    the table of conditionally removed fields hold, fields that are not
    valid included. *)
Theorem isFormValid_of_no_active_field (s : FormManager) :
  formFields s = [] ->
  isFormValid s = (Normal true, s, []).
Proof.
  intros Hempty. rewrite isFormValid_spec. rewrite Hempty. reflexivity.
Qed.

Lemma isFormValid_of_no_active_field_witness :
  formFields hidden_form = []
  /\ get "a" (conditionallyRemovedFormFields hidden_form) = Some 0
  /\ FormField.isValid (deref hidden_form 0) = false
  /\ isFormValid hidden_form = (Normal true, hidden_form, []).
Proof.
  split; [reflexivity|]. split; [reflexivity|]. split; [reflexivity|].
  apply (isFormValid_of_no_active_field hidden_form). reflexivity.
Defined.

(** ** Removing a field *)

Lemma removeFormField_spec s name :
  removeFormField name s =
    (Normal (read name (formFields s)),
     mkFormManager (heap s) (delete name (formFields s))
       (conditionallyRemovedFormFields s),
     []).
Proof. reflexivity. Qed.

(** C3, as the spec states it, fails: on a name that is in neither table
    [removeFormField] throws nothing and returns [undefined], and a
    conditionally removed field stays in its table. *)
Lemma removeFormField_counterexample :
  ~ (forall s name,
        (get name (formFields s) = None ->
         get name (conditionallyRemovedFormFields s) = None ->
         exists msg, completion_of (removeFormField name) s = Throw msg)
        /\ (forall r,
               get name (formFields s) = None ->
               get name (conditionallyRemovedFormFields s) = Some r ->
               completion_of (removeFormField name) s = Normal (Own r)
               /\ get name
                    (conditionallyRemovedFormFields
                       (state_after (removeFormField name) s)) = None)).
Proof.
  intros H. destruct (H hidden_form "a") as [_ H2].
  destruct (H2 0 eq_refl eq_refl) as [Hc _]. discriminate Hc.
Qed.

(** C3, amended.  [removeFormField(name)] looks at [formFields] only and
    never throws.  It returns what [this.formFields[name]] reads: the field
    when the name is a key of [formFields]; otherwise [undefined], or, for
    the name of a member of [Object.prototype] such as [toString], that
    inherited member.  It deletes the entry of the name in [formFields]; the
    other entries, the table of conditionally removed fields and the heap
    are untouched, and no callback runs.  When [name] is not a key of
    [formFields] the manager is left exactly as it was, so a conditionally
    removed field is not removed. *)
Theorem removeFormField_active_table_only (s : FormManager) (name : string) :
  let s' := state_after (removeFormField name) s in
  completion_of (removeFormField name) s = Normal (read name (formFields s))
  /\ (forall r, get name (formFields s) = Some r ->
                completion_of (removeFormField name) s = Normal (Own r))
  /\ (get name (formFields s) = None -> inherited name = false ->
      completion_of (removeFormField name) s = Normal Undefined)
  /\ (get name (formFields s) = None -> inherited name = true ->
      completion_of (removeFormField name) s = Normal (Inherited name))
  /\ evaluations_of (removeFormField name) s = []
  /\ get name (formFields s') = None
  /\ (forall k, k <> name -> get k (formFields s') = get k (formFields s))
  /\ conditionallyRemovedFormFields s' = conditionallyRemovedFormFields s
  /\ heap s' = heap s
  /\ (get name (formFields s) = None -> s' = s).
Proof.
  unfold state_after, completion_of, evaluations_of.
  rewrite removeFormField_spec. simpl.
  split; [reflexivity|]. split; [|split; [|split]].
  - intros r Hget. now rewrite (@read_own _ _ _ _ Hget).
  - intros Hget Hord. rewrite (@read_ordinary _ _ (formFields s) Hord). now rewrite Hget.
  - intros Hget Hinh. now rewrite (@read_inherited _ _ _ Hinh Hget).
  - repeat split.
    + apply get_delete_same.
    + intros k Hk. apply get_delete_other. congruence.
    + intros Habs. rewrite (delete_absent _ _ Habs). now destruct s.
Qed.

Lemma removeFormField_active_table_only_witness :
  get "a" (formFields hidden_form) = None
  /\ get "a" (conditionallyRemovedFormFields hidden_form) = Some 0
  /\ state_after (removeFormField "a") hidden_form = hidden_form.
Proof.
  split; [reflexivity|]. split; [reflexivity|].
  apply (proj2 (proj2 (proj2 (proj2 (proj2 (proj2 (proj2 (proj2 (proj2
           (removeFormField_active_table_only hidden_form "a")))))))))).
  reflexivity.
Defined.

(** ** A value change that changes nothing *)

(** C5.  When [name] is in [formFields] and the new value is strictly equal
    to the value the field has, [updateFormFieldStateOnValueChange] returns
    normally, evaluates no validation rule and no conditional, leaves both
    tables and every other heap cell as they were, and in the cell of the
    field sets [isTouched] and nothing else: value, validity, error message,
    rules and conditional are the same. *)
Theorem updateFormFieldStateOnValueChange_same_value
    (s : FormManager) (name : string) (v : Value) (r : Ref) (f : FormField.t) :
  get name (formFields s) = Some r ->
  nth_error (heap s) r = Some f ->
  strict_equal (FormField.value f) v = true ->
  let s' := state_after (updateFormFieldStateOnValueChange name v) s in
  completion_of (updateFormFieldStateOnValueChange name v) s = Normal tt
  /\ evaluations_of (updateFormFieldStateOnValueChange name v) s = []
  /\ formFields s' = formFields s
  /\ conditionallyRemovedFormFields s' = conditionallyRemovedFormFields s
  /\ length (heap s') = length (heap s)
  /\ (forall r', r' <> r -> nth_error (heap s') r' = nth_error (heap s) r')
  /\ nth_error (heap s') r = Some (FormField.set_isTouched true f)
  /\ FormField.isTouched (deref s' r) = true
  /\ FormField.value (deref s' r) = FormField.value f
  /\ FormField.isValid (deref s' r) = FormField.isValid f
  /\ FormField.errorMessage (deref s' r) = FormField.errorMessage f.
Proof.
  intros Hget Hcell Hsame.
  assert (Hrun : updateFormFieldStateOnValueChange name v s =
                 (Normal tt,
                  mkFormManager
                    (update_nth r (FormField.set_isTouched true) (heap s))
                    (formFields s) (conditionallyRemovedFormFields s), [])).
  { unfold updateFormFieldStateOnValueChange. unfold bind at 1, this at 1.
    rewrite (@read_own _ _ _ _ Hget). unfold bind at 1, store at 1. unfold bind at 1, load at 1.
    unfold deref. simpl. rewrite nth_update_nth, Nat.eqb_refl.
    assert (Hlt : r < length (heap s)).
    { apply nth_error_Some. congruence. }
    apply Nat.ltb_lt in Hlt. rewrite Hlt. simpl.
    rewrite (nth_error_nth _ _ _ Hcell). simpl. rewrite Hsame. reflexivity. }
  unfold state_after, completion_of, evaluations_of. rewrite Hrun. simpl.
  assert (Hnew : nth_error (update_nth r (FormField.set_isTouched true) (heap s)) r
                 = Some (FormField.set_isTouched true f)).
  { rewrite nth_error_update_nth_same, Hcell. reflexivity. }
  unfold deref. simpl. rewrite (nth_error_nth _ _ _ Hnew). simpl.
  repeat split; auto.
  - apply length_update_nth.
  - intros r' Hr'. apply nth_error_update_nth_other. congruence.
Qed.

Lemma updateFormFieldStateOnValueChange_same_value_witness :
  get "username" (formFields username_form) = Some 0
  /\ evaluations_of
       (updateFormFieldStateOnValueChange "username" (VString ""))
       username_form = []
  /\ FormField.isTouched
       (deref (state_after
                 (updateFormFieldStateOnValueChange "username" (VString ""))
                 username_form) 0) = true.
Proof.
  split; [reflexivity|].
  destruct (@updateFormFieldStateOnValueChange_same_value
              username_form "username" (VString "") 0
              (deref username_form 0) eq_refl eq_refl eq_refl)
    as (_ & He & _ & _ & _ & _ & _ & Ht & _).
  split; [exact He | exact Ht].
Defined.

(** ** Running a conditional *)

Lemma selected_own s name r :
  get name (formFields s) = Some r -> selected s name = Some r.
Proof. intros H. unfold selected. now rewrite (@read_own _ _ _ _ H). Qed.

Lemma selected_ordinary s name :
  inherited name = false ->
  selected s name =
    match get name (formFields s) with
    | Some r => Some r
    | None => get name (conditionallyRemovedFormFields s)
    end.
Proof.
  intros H. unfold selected, read. rewrite H.
  destruct (get name (formFields s)); [reflexivity|].
  now destruct (get name (conditionallyRemovedFormFields s)).
Qed.

Lemma runConditional_spec s name reason r :
  selected s name = Some r ->
  runConditional name reason s =
    (Normal tt, filed s name r (isShowing_of s reason r),
     [EvIsShowing name r reason (isShowing_of s reason r)]).
Proof.
  unfold selected, runConditional, filed, isShowing_of, read.
  unfold bind at 1, this at 1.
  destruct (get name (formFields s)) as [r1|] eqn:E1.
  - intros [= ->]. unfold_monad. simpl.
    destruct (FormFieldConditional.isShowing _ _); reflexivity.
  - destruct (inherited name); [discriminate|].
    destruct (get name (conditionallyRemovedFormFields s)) as [r2|] eqn:E2;
      [|discriminate].
    intros [= ->]. unfold_monad. simpl.
    destruct (FormFieldConditional.isShowing _ _); reflexivity.
Qed.

(** When no field is selected [runConditional] throws and writes nothing. *)
Lemma runConditional_absent s name reason :
  selected s name = None ->
  runConditional name reason s
  = (Throw (runConditional_failure s name), s, []).
Proof.
  unfold selected, runConditional, runConditional_failure, read.
  unfold bind at 1, this at 1.
  destruct (get name (formFields s)) as [r1|] eqn:E1; [discriminate|].
  destruct (inherited name) eqn:Ei.
  - intros _.
    now destruct (get name (conditionallyRemovedFormFields s)).
  - destruct (get name (conditionallyRemovedFormFields s)); [discriminate|].
    reflexivity.
Qed.



Lemma selected_filed_other s n r b name :
  n <> name -> selected (filed s n r b) name = selected s name.
Proof.
  intros Hne. unfold selected, read, filed. destruct b; simpl.
  - now rewrite get_set_other, get_delete_other.
  - now rewrite get_set_other, get_delete_other.
Qed.

Lemma get_filed_other s n r b name :
  n <> name ->
  get name (formFields (filed s n r b)) = get name (formFields s)
  /\ get name (conditionallyRemovedFormFields (filed s n r b))
     = get name (conditionallyRemovedFormFields s).
Proof.
  intros Hne. unfold filed. destruct b; simpl.
  - now rewrite get_set_other, get_delete_other.
  - now rewrite get_set_other, get_delete_other.
Qed.

Lemma get_filed_same s n r b :
  get n (formFields (filed s n r b)) = (if b then Some r else None)
  /\ get n (conditionallyRemovedFormFields (filed s n r b))
     = (if b then None else Some r).
Proof.
  unfold filed. destruct b; simpl.
  - now rewrite get_set_same, get_delete_same.
  - now rewrite get_set_same, get_delete_same.
Qed.

Lemma heap_filed s n r b : heap (filed s n r b) = heap s.
Proof. unfold filed. now destruct b. Qed.




(** ** Writes that leave the tables alone *)

Lemma state_after_store s r g :
  state_after (store r g) s =
    mkFormManager (update_nth r g (heap s)) (formFields s)
      (conditionallyRemovedFormFields s).
Proof. reflexivity. Qed.

Lemma heap_after_runConditional s name reason :
  heap (state_after (runConditional name reason) s) = heap s.
Proof.
  unfold state_after. destruct (selected s name) as [r|] eqn:E.
  - rewrite (@runConditional_spec s name reason r E). simpl.
    unfold filed. now destruct (isShowing_of s reason r).
  - now rewrite (@runConditional_absent s name reason E).
Qed.

(** ** The touched flag *)

Lemma touched_stays_refl s : touched_stays s s.
Proof. intros r H. exact H. Qed.

Lemma touched_stays_trans s1 s2 s3 :
  touched_stays s1 s2 -> touched_stays s2 s3 -> touched_stays s1 s3.
Proof. intros H12 H23 r H. auto. Qed.

Lemma touched_stays_store r g :
  (forall f, FormField.isTouched f = true -> FormField.isTouched (g f) = true) ->
  keeps touched_stays (store r g).
Proof.
  intros Hg s r' (f & Hf & Ht). rewrite state_after_store.
  unfold touched. simpl. destruct (Nat.eq_dec r r') as [->|Hne].
  - rewrite nth_error_update_nth_same, Hf. simpl. eauto.
  - rewrite nth_error_update_nth_other by assumption. eauto.
Qed.

Lemma touched_stays_runConditional n reason :
  keeps touched_stays (runConditional n reason).
Proof.
  intros s r (f & Hf & Ht). exists f.
  now rewrite heap_after_runConditional.
Qed.

(** [addFormField] allocates the field, then assigns it under the name;
    under [__proto__] the assignment replaces the prototype of [formFields]
    and creates no key. *)
Lemma addFormField_run s name v :
  addFormField name v s =
    if String.eqb name "__proto__" then
      (Unmodelled replaces_prototype,
       mkFormManager (heap s ++ [FormField.new name v])%list
         (formFields s) (conditionallyRemovedFormFields s),
       [])
    else
      (Normal (length (heap s)),
       mkFormManager (heap s ++ [FormField.new name v])%list
         (set name (length (heap s)) (formFields s))
         (conditionallyRemovedFormFields s),
       []).
Proof.
  unfold addFormField. unfold_monad. simpl.
  now destruct (String.eqb name "__proto__").
Qed.

Lemma heap_after_addFormField s name v :
  heap (state_after (addFormField name v) s)
  = (heap s ++ [FormField.new name v])%list.
Proof.
  unfold state_after. rewrite addFormField_run.
  now destruct (String.eqb name "__proto__").
Qed.

Lemma formFields_after_addFormField s name v :
  formFields (state_after (addFormField name v) s)
  = if String.eqb name "__proto__" then formFields s
    else set name (length (heap s)) (formFields s).
Proof.
  unfold state_after. rewrite addFormField_run.
  now destruct (String.eqb name "__proto__").
Qed.

Lemma removed_after_addFormField s name v :
  conditionallyRemovedFormFields (state_after (addFormField name v) s)
  = conditionallyRemovedFormFields s.
Proof.
  unfold state_after. rewrite addFormField_run.
  now destruct (String.eqb name "__proto__").
Qed.

Lemma touched_stays_call c s : touched_stays s (call c s).
Proof.
  destruct c; simpl.
  - intros r (f & Hf & Ht). exists f. split; [|exact Ht].
    rewrite heap_after_addFormField.
    rewrite nth_error_app1; [exact Hf|]. apply nth_error_Some. congruence.
  - intros r H. exact H.
  - apply (keeps_runValidations touched_stays_refl touched_stays_trans);
      intros; now apply touched_stays_store.
  - apply touched_stays_runConditional.
  - apply (keeps_updateFormFieldStateOnValueChange
             touched_stays_refl touched_stays_trans);
      intros; try now apply touched_stays_store.
    apply touched_stays_runConditional.
  - apply (keeps_updateFormFieldStateOnBlur touched_stays_refl touched_stays_trans);
      intros; now apply touched_stays_store.
  - now apply touched_stays_store.
  - now apply touched_stays_store.
Qed.

Lemma touched_stays_calls cs s : touched_stays s (calls cs s).
Proof.
  revert s. induction cs as [|c cs IH]; intros s; simpl.
  - apply touched_stays_refl.
  - eapply touched_stays_trans; [apply touched_stays_call | apply IH].
Qed.

Lemma update_nth_twice (A : Type) (g : A -> A) l i :
  (forall x, g (g x) = g x) ->
  update_nth i g (update_nth i g l) = update_nth i g l.
Proof.
  intros Hg. revert i. induction l as [|x l IH]; intros [|i]; simpl; auto.
  - now rewrite Hg.
  - now rewrite IH.
Qed.

Lemma touched_after_store s r :
  r < length (heap s) ->
  touched (state_after (store r (FormField.set_isTouched true)) s) r.
Proof.
  intros Hlt. apply nth_error_Some in Hlt.
  destruct (nth_error (heap s) r) as [f|] eqn:E; [|congruence].
  exists (FormField.set_isTouched true f). rewrite state_after_store. simpl.
  rewrite nth_error_update_nth_same, E. auto.
Qed.

(** *** Stepping through [bind] *)

Lemma bind_run (A B : Type) (m : M A) (k : A -> M B) s a s1 e1 :
  m s = (Normal a, s1, e1) ->
  bind m k s =
    (completion_of (k a) s1, state_after (k a) s1,
     (e1 ++ evaluations_of (k a) s1)%list).
Proof.
  intros H. unfold bind, completion_of, state_after, evaluations_of.
  rewrite H. now destruct (k a s1) as [[c s2] e2].
Qed.

Lemma bind_throws (A B : Type) (m : M A) (k : A -> M B) s msg s1 e1 :
  m s = (Throw msg, s1, e1) -> bind m k s = (Throw msg, s1, e1).
Proof. intros H. unfold bind. now rewrite H. Qed.

Lemma state_after_bind_this (B : Type) (k : FormManager -> M B) s :
  state_after (bind this k) s = state_after (k s) s.
Proof.
  unfold state_after at 1. now rewrite (@bind_run _ _ this k s s s [] eq_refl).
Qed.

Lemma state_after_bind_store (B : Type) r g (k : unit -> M B) s :
  state_after (bind (store r g) k) s =
  state_after (k tt) (state_after (store r g) s).
Proof.
  unfold state_after at 1.
  now rewrite (@bind_run _ _ (store r g) k s tt _ [] eq_refl).
Qed.

Lemma store_twice s r g :
  (forall f, g (g f) = g f) ->
  state_after (store r g) (state_after (store r g) s) =
  state_after (store r g) s.
Proof.
  intros Hg. rewrite !state_after_store. simpl. now rewrite update_nth_twice.
Qed.

(** The first write of a value change or of a blur is the touched flag, so
    the call does the same whether or not the flag was set before. *)
Lemma updateFormFieldStateOnValueChange_after_touch s name v r :
  get name (formFields s) = Some r ->
  state_after (updateFormFieldStateOnValueChange name v) s =
  state_after (updateFormFieldStateOnValueChange name v)
    (state_after (store r (FormField.set_isTouched true)) s).
Proof.
  intros Hget. unfold updateFormFieldStateOnValueChange.
  rewrite !state_after_bind_this.
  change (formFields (state_after (store r (FormField.set_isTouched true)) s))
    with (formFields s).
  rewrite (@read_own _ _ _ _ Hget).
  rewrite !state_after_bind_store. now rewrite store_twice.
Qed.

Lemma updateFormFieldStateOnBlur_after_touch s name r :
  get name (formFields s) = Some r ->
  state_after (updateFormFieldStateOnBlur name) s =
  state_after (updateFormFieldStateOnBlur name)
    (state_after (store r (FormField.set_isTouched true)) s).
Proof.
  intros Hget. unfold updateFormFieldStateOnBlur.
  rewrite !state_after_bind_this.
  change (formFields (state_after (store r (FormField.set_isTouched true)) s))
    with (formFields s).
  rewrite (@read_own _ _ _ _ Hget).
  rewrite !state_after_bind_store. now rewrite store_twice.
Qed.

(** *** The object behind a name *)

Lemma held_before_refl name s : held_before name s s.
Proof. intros r H. exact H. Qed.

Lemma held_before_trans name s1 s2 s3 :
  held_before name s1 s2 -> held_before name s2 s3 -> held_before name s1 s3.
Proof. unfold held_before. auto. Qed.

Lemma held_before_store name r g : keeps (held_before name) (store r g).
Proof. intros s r' H. exact H. Qed.

Lemma held_selected s name r : selected s name = Some r -> held s name r.
Proof.
  unfold selected, held.
  destruct (read name (formFields s)) as [r1|k|] eqn:E1.
  - intros [= ->]. left. now apply read_Own_inv.
  - discriminate.
  - destruct (read name (conditionallyRemovedFormFields s)) as [r2|k|] eqn:E2;
      try discriminate.
    intros [= ->]. right. now apply read_Own_inv.
Qed.

Lemma held_before_runConditional name n reason :
  keeps (held_before name) (runConditional n reason).
Proof.
  intros s r' H. unfold state_after in H.
  destruct (selected s n) as [r|] eqn:E.
  - rewrite (@runConditional_spec s n reason r E) in H. simpl in H.
    unfold held in H. destruct (string_dec n name) as [->|Hne].
    + destruct (get_filed_same s name r (isShowing_of s reason r)) as [Ha Hr].
      rewrite Ha, Hr in H. apply held_selected.
      destruct (isShowing_of s reason r); destruct H as [H|H]; congruence.
    + destruct (@get_filed_other s n r (isShowing_of s reason r) name Hne)
        as [Ha Hr].
      rewrite Ha, Hr in H. exact H.
  - rewrite (@runConditional_absent s n reason E) in H. exact H.
Qed.

Lemma held_before_call name c s :
  (forall v, c <> AddFormField name v) -> held_before name s (call c s).
Proof.
  destruct c; simpl; intros Hc.
  - intros r H. unfold held, state_after in *. rewrite addFormField_run in H.
    destruct (String.eqb name0 "__proto__"); simpl in H; [exact H|].
    rewrite get_set_other in H; [exact H|].
    intros ->. now apply (Hc initialValue).
  - intros r H. unfold held, state_after in *.
    rewrite removeFormField_spec in H. simpl in H.
    destruct H as [H|H]; [left; now apply get_delete_inv in H | now right].
  - apply (keeps_runValidations (@held_before_refl name)
             (@held_before_trans name));
      intros; apply held_before_store.
  - apply held_before_runConditional.
  - apply (keeps_updateFormFieldStateOnValueChange (@held_before_refl name)
             (@held_before_trans name));
      intros; try apply held_before_store.
    apply held_before_runConditional.
  - apply (keeps_updateFormFieldStateOnBlur (@held_before_refl name)
             (@held_before_trans name));
      intros; apply held_before_store.
  - apply held_before_store.
  - apply held_before_store.
Qed.

(** C9.  The touched flag of a field never goes back.  A field object whose
    [isTouched] is set still has it set after any sequence of calls (the six
    operations of the manager and the assignments of rules and
    conditionals).  A value change and a blur on a field of [formFields]
    leave the flag of that field set.  And the object a table holds under a
    name changes only when [addFormField] is called on that name, which puts
    a new field there: after any other call, the field held under the name
    was held under it before, so its flag, once set, is still set. *)
Theorem isTouched_monotonic :
  (forall cs s r f,
      nth_error (heap s) r = Some f ->
      FormField.isTouched f = true ->
      exists f',
        nth_error (heap (calls cs s)) r = Some f'
        /\ FormField.isTouched f' = true)
  /\ (forall s name v r,
         get name (formFields s) = Some r ->
         r < length (heap s) ->
         touched (call (UpdateFormFieldStateOnValueChange name v) s) r)
  /\ (forall s name r,
         get name (formFields s) = Some r ->
         r < length (heap s) ->
         touched (call (UpdateFormFieldStateOnBlur name) s) r)
  /\ (forall c s name r,
         (forall v, c <> AddFormField name v) ->
         held (call c s) name r ->
         held s name r /\ (touched s r -> touched (call c s) r)).
Proof.
  split; [|split; [|split]].
  - intros cs s r f Hf Ht. apply (@touched_stays_calls cs s). exists f. auto.
  - intros s name v r Hget Hlt. simpl.
    rewrite (@updateFormFieldStateOnValueChange_after_touch s name v r Hget).
    apply (@touched_stays_call (UpdateFormFieldStateOnValueChange name v)).
    now apply touched_after_store.
  - intros s name r Hget Hlt. simpl.
    rewrite (@updateFormFieldStateOnBlur_after_touch s name r Hget).
    apply (@touched_stays_call (UpdateFormFieldStateOnBlur name)).
    now apply touched_after_store.
  - intros c s name r Hc Hheld. split.
    + now apply (@held_before_call name c s Hc).
    + apply touched_stays_call.
Qed.

Lemma isTouched_monotonic_witness :
  nth_error (heap touched_username_form) 0
    = Some (deref touched_username_form 0)
  /\ FormField.isTouched (deref touched_username_form 0) = true
  /\ exists f',
       nth_error
         (heap (calls [UpdateFormFieldStateOnBlur "username";
                       AddFormField "username" VNull;
                       RemoveFormField "username"]
                  touched_username_form)) 0 = Some f'
       /\ FormField.isTouched f' = true.
Proof.
  split; [reflexivity|]. split; [reflexivity|].
  apply (proj1 isTouched_monotonic
           [UpdateFormFieldStateOnBlur "username";
            AddFormField "username" VNull;
            RemoveFormField "username"]
           touched_username_form 0 (deref touched_username_form 0));
    reflexivity.
Defined.

(** ** One table per name *)

Lemma stays_in_exactly_one_refl name s : stays_in_exactly_one name s s.
Proof. intros H. exact H. Qed.

Lemma stays_in_exactly_one_trans name s1 s2 s3 :
  stays_in_exactly_one name s1 s2 -> stays_in_exactly_one name s2 s3 ->
  stays_in_exactly_one name s1 s3.
Proof. unfold stays_in_exactly_one. auto. Qed.

Lemma stays_in_exactly_one_store name r g :
  keeps (stays_in_exactly_one name) (store r g).
Proof. intros s H. exact H. Qed.

Lemma has_set_same (A : Type) k (v : A) o : has k (set k v o) = true.
Proof. unfold has. now rewrite get_set_same. Qed.

Lemma has_delete_same (A : Type) k (o : JSObject A) : has k (delete k o) = false.
Proof. unfold has. now rewrite get_delete_same. Qed.

Lemma has_set_other (A : Type) k k' (v : A) o :
  k <> k' -> has k' (set k v o) = has k' o.
Proof. intros H. unfold has. now rewrite get_set_other. Qed.

Lemma has_delete_other (A : Type) k k' (o : JSObject A) :
  k <> k' -> has k' (delete k o) = has k' o.
Proof. intros H. unfold has. now rewrite get_delete_other. Qed.

(** After [runConditional(n)] the name [n] is in exactly one table, and no
    other name has moved. *)
Lemma in_exactly_one_filed s n r b : in_exactly_one (filed s n r b) n = true.
Proof.
  unfold in_exactly_one, filed. destruct b; simpl.
  - now rewrite has_set_same, has_delete_same.
  - now rewrite has_set_same, has_delete_same.
Qed.

Lemma in_exactly_one_filed_other s n r b name :
  n <> name -> in_exactly_one (filed s n r b) name = in_exactly_one s name.
Proof.
  intros Hne. unfold in_exactly_one, filed. destruct b; simpl.
  - now rewrite has_set_other, has_delete_other.
  - now rewrite has_set_other, has_delete_other.
Qed.

Lemma stays_in_exactly_one_runConditional name n reason :
  keeps (stays_in_exactly_one name) (runConditional n reason).
Proof.
  intros s H. unfold state_after. destruct (selected s n) as [r|] eqn:E.
  - rewrite (@runConditional_spec s n reason r E). simpl.
    destruct (string_dec n name) as [->|Hne].
    + apply in_exactly_one_filed.
    + now rewrite in_exactly_one_filed_other.
  - now rewrite (@runConditional_absent s n reason E).
Qed.

Lemma stays_in_exactly_one_call name c s :
  match c with
  | AddFormField n _ =>
      n <> name \/ has name (conditionallyRemovedFormFields s) = false
  | RemoveFormField n => n <> name
  | _ => True
  end ->
  stays_in_exactly_one name s (call c s).
Proof.
  destruct c; simpl; intros Hc.
  - intros H. unfold in_exactly_one in *.
    unfold state_after. rewrite addFormField_run.
    destruct (String.eqb name0 "__proto__"); simpl; [exact H|].
    destruct (string_dec name0 name) as [->|Hne].
    + destruct Hc as [Hne|Hrem]; [congruence|].
      now rewrite has_set_same, Hrem.
    + now rewrite has_set_other.
  - intros H. unfold in_exactly_one in *.
    unfold state_after. rewrite removeFormField_spec. simpl.
    now rewrite has_delete_other.
  - apply (keeps_runValidations (@stays_in_exactly_one_refl name)
             (@stays_in_exactly_one_trans name));
      intros; apply stays_in_exactly_one_store.
  - apply stays_in_exactly_one_runConditional.
  - apply (keeps_updateFormFieldStateOnValueChange
             (@stays_in_exactly_one_refl name)
             (@stays_in_exactly_one_trans name));
      intros; try apply stays_in_exactly_one_store.
    apply stays_in_exactly_one_runConditional.
  - apply (keeps_updateFormFieldStateOnBlur (@stays_in_exactly_one_refl name)
             (@stays_in_exactly_one_trans name));
      intros; apply stays_in_exactly_one_store.
  - apply stays_in_exactly_one_store.
  - apply stays_in_exactly_one_store.
Qed.

(** Adding [name] puts it in [formFields]; it is then in exactly one table
    unless the other table holds it too. *)
Lemma in_exactly_one_after_add name v s :
  String.eqb name "__proto__" = false ->
  has name (conditionallyRemovedFormFields s) = false ->
  in_exactly_one (call (AddFormField name v) s) name = true.
Proof.
  intros Hname Hrem. unfold in_exactly_one. simpl.
  unfold state_after. rewrite addFormField_run, Hname. simpl.
  now rewrite has_set_same, Hrem.
Qed.

Lemma in_exactly_one_calls name cs :
  forall s b,
    (b = true -> in_exactly_one s name = true) ->
    within_model cs s = true ->
    never_added_while_removed name cs s = true ->
    added_and_not_removed b name cs = true ->
    in_exactly_one (calls cs s) name = true.
Proof.
  induction cs as [|c cs IH]; intros s b Hb Hmodel Hguard Hlive; simpl in *.
  - auto.
  - apply andb_true_iff in Hguard. destruct Hguard as [Hc Hguard].
    apply andb_true_iff in Hmodel. destruct Hmodel as [Hm Hmodel].
    destruct c; try (apply (IH _ b); auto; intros Hb';
                     apply stays_in_exactly_one_call; simpl; auto).
    + (* addFormField *)
      apply (IH _ (b || String.eqb name0 name)); auto. intros Hb'.
      simpl in Hm. apply negb_true_iff in Hm.
      destruct (String.eqb name0 name) eqn:E.
      * apply String.eqb_eq in E. subst name0. simpl in Hc.
        apply negb_true_iff in Hc. now apply in_exactly_one_after_add.
      * rewrite orb_false_r in Hb'. apply String.eqb_neq in E.
        apply stays_in_exactly_one_call; simpl; auto.
    + (* removeFormField *)
      apply (IH _ (b && negb (String.eqb name0 name))); auto. intros Hb'.
      apply andb_true_iff in Hb'. destruct Hb' as [Hb1 Hb2].
      apply negb_true_iff in Hb2. apply String.eqb_neq in Hb2.
      apply stays_in_exactly_one_call; simpl; auto.
Qed.

(** C2, as the spec states it, fails: after [add_hide_add] the name [a],
    added and never removed, is a key of both tables. *)
Lemma in_exactly_one_counterexample :
  ~ (forall cs name,
        added_and_not_removed false name cs = true ->
        in_exactly_one (calls cs new_FormManager) name = true).
Proof.
  intros H. specialize (H add_hide_add "a" eq_refl). discriminate H.
Qed.

(** C2, amended.  Start from an empty manager and run any sequence of calls
    (the six operations and the assignments of rules and conditionals) that
    stays inside the model, so no field is added under [__proto__] and no
    validation, value change or blur is asked for a member of
    [Object.prototype] that is not a key of [formFields], and in which
    [addFormField] is never called on a name while that name is a key of the
    table of conditionally removed fields.  Then every name that was added
    and not passed to [removeFormField] since is a key of exactly one of the
    two tables. *)
Theorem in_exactly_one_unless_added_while_removed
    (cs : list Call) (name : string) :
  within_model cs new_FormManager = true ->
  never_added_while_removed name cs new_FormManager = true ->
  added_and_not_removed false name cs = true ->
  in_exactly_one (calls cs new_FormManager) name = true.
Proof.
  intros Hmodel Hguard Hlive.
  apply (@in_exactly_one_calls name cs new_FormManager false);
    [discriminate | assumption | assumption | assumption].
Qed.

Lemma in_exactly_one_unless_added_while_removed_witness :
  within_model add_hide_show new_FormManager = true
  /\ never_added_while_removed "a" add_hide_show new_FormManager = true
  /\ added_and_not_removed false "a" add_hide_show = true
  /\ in_exactly_one (calls add_hide_show new_FormManager) "a" = true.
Proof.
  split; [reflexivity|]. split; [reflexivity|]. split; [reflexivity|].
  apply (in_exactly_one_unless_added_while_removed add_hide_show "a");
    reflexivity.
Defined.

(** ** Propagation of a value change *)

Lemma updateFormFieldStateOnValueChange_unfold name newValue :
  updateFormFieldStateOnValueChange name newValue =
    (s <- this ;;
     match read name (formFields s) with
     | Undefined => throw (does_not_exist name)
     | Inherited _ => unmodelled writes_Object_prototype
     | Own formField =>
         store formField (FormField.set_isTouched true) ;;;
         f <- load formField ;;
         if strict_equal (FormField.value f) newValue then ret tt
         else
           store formField (FormField.set_value newValue) ;;;
           runValidations name ;;;
           propagation name
     end).
Proof. reflexivity. Qed.

Lemma filterM_hasDependency (table : FormManager -> JSObject Ref) name s l :
  (forall n, In n l -> get n (table s) <> None) ->
  filterM (fun n => s' <- this ;; hasDependency name (read n (table s'))) l s =
    (Normal (filter (fun n => match get n (table s) with
                              | Some r => depends_on s name r
                              | None => false
                              end) l), s, []).
Proof.
  induction l as [|n l IH]; intros Hin; simpl; auto.
  destruct (get n (table s)) as [r|] eqn:E.
  - assert (Hn : (s' <- this ;; hasDependency name (read n (table s'))) s
                 = (Normal (depends_on s name r), s, [])).
    { unfold hasDependency. unfold_monad. now rewrite (@read_own _ _ _ _ E). }
    rewrite (@bind_run _ _ _ _ _ _ _ _ Hn). unfold completion_of, state_after, evaluations_of.
    rewrite (@bind_run _ _ _ _ _ _ _ _ (IH (fun m Hm => Hin m (or_intror Hm)))). reflexivity.
  - exfalso. apply (Hin n); auto. now left.
Qed.

(** One pass of [runConditional] over a list of distinct names, each held by
    a table: every name of the list has its conditional evaluated once and is
    filed by the answer; no other name moves or is evaluated. *)
Lemma forEach_runConditional_spec reason l :
  forall s,
    NoDup l ->
    (forall n, In n l -> selected s n <> None) ->
    exists s' evs,
      forEach l (fun fieldName => runConditional fieldName reason) s
        = (Normal tt, s', evs)
      /\ heap s' = heap s
      /\ (forall n, ~ In n l ->
            get n (formFields s') = get n (formFields s)
            /\ get n (conditionallyRemovedFormFields s')
               = get n (conditionallyRemovedFormFields s)
            /\ isShowing_evaluations n evs = [])
      /\ (forall n, In n l ->
            exists r b,
              selected s n = Some r
              /\ isShowing_evaluations n evs = [EvIsShowing n r reason b]
              /\ get n (formFields s') = (if b then Some r else None)
              /\ get n (conditionallyRemovedFormFields s')
                 = (if b then None else Some r)).
Proof.
  induction l as [|x l IH]; intros s Hnd Hsel.
  - exists s, []. simpl. repeat split; auto. intros n [].
  - inversion Hnd as [|? ? Hx Hnd']; subst.
    destruct (selected s x) as [r|] eqn:Ex;
      [|exfalso; apply (Hsel x); [now left | exact Ex]].
    set (b := isShowing_of s reason r).
    set (s1 := filed s x r b).
    assert (Hsel1 : forall n, In n l -> selected s1 n <> None).
    { intros n Hn. unfold s1. rewrite selected_filed_other.
      - apply Hsel. now right.
      - intros ->. contradiction. }
    destruct (IH s1 Hnd' Hsel1) as (s' & evs & Hrun & Hheap & Hout & Hin).
    exists s', (EvIsShowing x r reason b :: evs).
    split; [|split; [|split]].
    + simpl. rewrite (@bind_run _ _ _ _ _ _ _ _ (@runConditional_spec s x reason r Ex)).
      unfold completion_of, state_after, evaluations_of.
      fold b. fold s1. now rewrite Hrun.
    + rewrite Hheap. apply heap_filed.
    + intros n Hn. assert (Hne : x <> n) by (intros ->; apply Hn; now left).
      assert (Hnl : ~ In n l) by (intros H; apply Hn; now right).
      destruct (Hout n Hnl) as (Ha & Hr & He).
      destruct (@get_filed_other s x r b n Hne) as [Ha1 Hr1].
      split; [|split].
      * rewrite Ha. exact Ha1.
      * rewrite Hr. exact Hr1.
      * unfold isShowing_evaluations. simpl.
        apply String.eqb_neq in Hne. rewrite Hne. exact He.
    + intros n [->|Hn].
      * destruct (Hout n Hx) as (Ha & Hr & He).
        destruct (get_filed_same s n r b) as [Ha1 Hr1].
        exists r, b. split; [exact Ex|]. split; [|split].
        -- unfold isShowing_evaluations. simpl. rewrite String.eqb_refl.
           f_equal. exact He.
        -- rewrite Ha. exact Ha1.
        -- rewrite Hr. exact Hr1.
      * assert (Hne : x <> n) by (intros ->; contradiction).
        destruct (Hin n Hn) as (r' & b' & Hs & He & Ha & Hr).
        exists r', b'. split; [|split; [|split]]; auto.
        -- unfold s1 in Hs. now rewrite selected_filed_other in Hs.
        -- unfold isShowing_evaluations. simpl.
           apply String.eqb_neq in Hne. rewrite Hne. exact He.
Qed.

(** *** Tables without repeated names *)

Lemma nodup_tables_stay_refl s : nodup_tables_stay s s.
Proof. intros H. exact H. Qed.

Lemma nodup_tables_stay_trans s1 s2 s3 :
  nodup_tables_stay s1 s2 -> nodup_tables_stay s2 s3 -> nodup_tables_stay s1 s3.
Proof. unfold nodup_tables_stay. auto. Qed.

Lemma nodup_tables_filed s n r b : nodup_tables s -> nodup_tables (filed s n r b).
Proof.
  intros [Ha Hr]. unfold nodup_tables, filed. destruct b; simpl; split;
    auto using NoDup_set, NoDup_delete.
Qed.

Lemma nodup_tables_stay_runConditional n reason :
  keeps nodup_tables_stay (runConditional n reason).
Proof.
  intros s H. unfold state_after. destruct (selected s n) as [r|] eqn:E.
  - rewrite (@runConditional_spec s n reason r E). simpl.
    now apply nodup_tables_filed.
  - now rewrite (@runConditional_absent s n reason E).
Qed.

Lemma nodup_tables_stay_store r g : keeps nodup_tables_stay (store r g).
Proof. intros s H. exact H. Qed.

(** *** Who depends on the changed field *)

Lemma In_dependents (table : FormManager -> JSObject Ref) s name n :
  In n (dependents table s name) <->
  exists r, get n (table s) = Some r /\ depends_on s name r = true.
Proof.
  unfold dependents. rewrite filter_In, In_Object_keys. split.
  - intros [_ H]. destruct (get n (table s)) as [r|]; [eauto | discriminate].
  - intros (r & Hget & Hdep). rewrite Hget. split; [discriminate | exact Hdep].
Qed.

Lemma NoDup_dependents (table : FormManager -> JSObject Ref) s name :
  NoDup (own_names (table s)) -> NoDup (dependents table s name).
Proof. intros H. apply NoDup_filter. now apply NoDup_Object_keys. Qed.

Lemma depends_on_heap s s' name r :
  heap s' = heap s -> depends_on s' name r = depends_on s name r.
Proof. intros H. unfold depends_on, deref. now rewrite H. Qed.

Lemma filterM_dependents (table : FormManager -> JSObject Ref) name s :
  filterM (fun n => s' <- this ;; hasDependency name (read n (table s')))
    (Object_keys (table s)) s
  = (Normal (dependents table s name), s, []).
Proof.
  apply filterM_hasDependency. intros n Hn. now apply In_Object_keys.
Qed.

Lemma ordinary_keys_held s n r :
  ordinary_keys s = true -> held s n r -> inherited n = false.
Proof.
  unfold ordinary_keys. rewrite forallb_forall. intros H Hh.
  apply negb_true_iff. apply H. apply in_or_app.
  destruct Hh as [Hh|Hh]; [left|right]; apply In_own_names; congruence.
Qed.

Lemma selected_Some_inv s n r :
  selected s n = Some r ->
  get n (formFields s) = Some r
  \/ (get n (formFields s) = None /\ inherited n = false
      /\ get n (conditionallyRemovedFormFields s) = Some r).
Proof.
  unfold selected, read.
  destruct (get n (formFields s)) as [ra|]; [intros [= ->]; now left|].
  destruct (inherited n); [discriminate|].
  destruct (get n (conditionallyRemovedFormFields s)); [|discriminate].
  intros [= ->]. now right.
Qed.

(** The two passes of [propagation], on tables without repeated names and
    without names of [Object.prototype].  The first list is taken from
    [formFields] as [propagation] finds it; the second is taken from the
    table of removed fields after the first pass has run, so it holds the
    fields the first pass has just removed. *)
Lemma propagation_spec name s :
  nodup_tables s ->
  ordinary_keys s = true ->
  exists s' evs,
    propagation name s = (Normal tt, s', evs)
    /\ heap s' = heap s
    /\ propagated name s s' evs.
Proof.
  intros [Hnda Hndr] Hord.
  (* first pass *)
  set (l1 := dependents formFields s name).
  assert (Hsel1 : forall n, In n l1 -> selected s n <> None).
  { intros n Hn. apply In_dependents in Hn. destruct Hn as (r & Hget & _).
    rewrite (@selected_own s n r Hget). discriminate. }
  destruct (@forEach_runConditional_spec name l1 s
              (NoDup_dependents formFields s name Hnda) Hsel1)
    as (s1 & evs1 & Hrun1 & Hheap1 & Hout1 & Hin1).
  assert (Hnd1 : nodup_tables s1).
  { assert (K : keeps nodup_tables_stay
                  (forEach l1 (fun fieldName => runConditional fieldName name))).
    { apply (keeps_forEach nodup_tables_stay_refl nodup_tables_stay_trans).
      intros x. apply nodup_tables_stay_runConditional. }
    specialize (K s). unfold state_after in K. rewrite Hrun1 in K.
    apply K. now split. }
  (* second pass *)
  set (l2 := dependents conditionallyRemovedFormFields s1 name).
  assert (Hord1 : forall n r,
             get n (conditionallyRemovedFormFields s1) = Some r ->
             inherited n = false).
  { intros n r Hget. destruct (in_dec string_dec n l1) as [Hn1|Hn1].
    - apply In_dependents in Hn1. destruct Hn1 as (r1 & Hg1 & _).
      apply (@ordinary_keys_held s n r1 Hord). now left.
    - destruct (Hout1 n Hn1) as (_ & Hr1 & _). rewrite Hr1 in Hget.
      apply (@ordinary_keys_held s n r Hord). now right. }
  assert (Hsel2 : forall n, In n l2 -> selected s1 n <> None).
  { intros n Hn. apply In_dependents in Hn. destruct Hn as (r & Hget & _).
    rewrite (@selected_ordinary s1 n (Hord1 n r Hget)), Hget.
    destruct (get n (formFields s1)); discriminate. }
  destruct (@forEach_runConditional_spec name l2 s1
              (NoDup_dependents conditionallyRemovedFormFields s1 name
                 (proj2 Hnd1)) Hsel2)
    as (s2 & evs2 & Hrun2 & Hheap2 & Hout2 & Hin2).
  exists s2, (evs1 ++ evs2)%list. split.
  { unfold propagation.
    rewrite (@bind_run _ _ this _ s s s [] eq_refl).
    unfold completion_of, state_after, evaluations_of.
    rewrite (@bind_run _ _ _ _ _ _ _ _ (filterM_dependents formFields name s)).
    unfold completion_of, state_after, evaluations_of.
    fold l1. rewrite (@bind_run _ _ _ _ _ _ _ _ Hrun1).
    unfold completion_of, state_after, evaluations_of.
    rewrite (@bind_run _ _ this _ s1 s1 s1 [] eq_refl).
    unfold completion_of, state_after, evaluations_of.
    rewrite (@bind_run _ _ _ _ _ _ _ _
               (filterM_dependents conditionallyRemovedFormFields name s1)).
    unfold completion_of, state_after, evaluations_of.
    fold l2. rewrite Hrun2. reflexivity. }
  split; [now rewrite Hheap2|].
  split; [|split; [|split]].
  - (* a dependent that is in formFields *)
    intros n r Hget Hdep.
    assert (Hn1 : In n l1) by (apply In_dependents; eauto).
    destruct (Hin1 n Hn1) as (r' & b & Hs & He1 & Ha1 & Hr1).
    rewrite (@selected_own s n r Hget) in Hs. injection Hs as <-.
    rewrite isShowing_evaluations_app, He1.
    destruct b.
    + left. assert (Hn2 : ~ In n l2).
      { intros Hn2. apply In_dependents in Hn2.
        destruct Hn2 as (r2 & Hget2 & _). congruence. }
      destruct (Hout2 n Hn2) as (Ha2 & Hr2 & He2).
      rewrite He2, Ha2, Hr2. auto.
    + right. assert (Hn2 : In n l2).
      { apply In_dependents. exists r. split; [exact Hr1|].
        now rewrite (@depends_on_heap s s1 name r Hheap1). }
      destruct (Hin2 n Hn2) as (r2 & b2 & Hs2 & He2 & Ha2 & Hr2).
      rewrite (@selected_ordinary s1 n (Hord1 n r Hr1)), Ha1, Hr1 in Hs2.
      injection Hs2 as <-.
      exists b2. rewrite He2. auto.
  - (* a dependent that is in the table of removed fields only *)
    intros n r Hnone Hget Hdep.
    assert (Hn1 : ~ In n l1).
    { intros Hn1. apply In_dependents in Hn1.
      destruct Hn1 as (r1 & Hget1 & _). congruence. }
    destruct (Hout1 n Hn1) as (Ha1 & Hr1 & He1).
    assert (Hget1 : get n (conditionallyRemovedFormFields s1) = Some r)
      by congruence.
    assert (Hn2 : In n l2).
    { apply In_dependents. exists r. split; [exact Hget1|].
      now rewrite (@depends_on_heap s s1 name r Hheap1). }
    destruct (Hin2 n Hn2) as (r2 & b2 & Hs2 & He2 & Ha2 & Hr2).
    rewrite (@selected_ordinary s1 n (Hord1 n r Hget1)), Ha1, Hnone, Hget1
      in Hs2.
    injection Hs2 as <-.
    exists b2. rewrite isShowing_evaluations_app, He1, He2. auto.
  - (* a name of both tables whose removed field alone depends *)
    intros n ra rr Hgeta Hdepa Hgetr Hdepr.
    assert (Hn1 : ~ In n l1).
    { intros Hn1. apply In_dependents in Hn1.
      destruct Hn1 as (r1 & Hget1 & Hdep1). congruence. }
    destruct (Hout1 n Hn1) as (Ha1 & Hr1 & He1).
    assert (Hn2 : In n l2).
    { apply In_dependents. exists rr. split; [congruence|].
      now rewrite (@depends_on_heap s s1 name rr Hheap1). }
    destruct (Hin2 n Hn2) as (r2 & b2 & Hs2 & He2 & Ha2 & Hr2).
    rewrite Hgeta in Ha1.
    rewrite (@selected_own s1 n ra Ha1) in Hs2. injection Hs2 as <-.
    exists b2. rewrite isShowing_evaluations_app, He1, He2. auto.
  - (* a name with no dependent field *)
    intros n Hnone.
    assert (Hn1 : ~ In n l1).
    { intros Hn1. apply In_dependents in Hn1.
      destruct Hn1 as (r1 & Hget1 & Hdep1).
      rewrite (Hnone r1 (or_introl Hget1)) in Hdep1. discriminate. }
    destruct (Hout1 n Hn1) as (Ha1 & Hr1 & He1).
    assert (Hn2 : ~ In n l2).
    { intros Hn2. apply In_dependents in Hn2.
      destruct Hn2 as (r2 & Hget2 & Hdep2).
      rewrite (@depends_on_heap s s1 name r2 Hheap1) in Hdep2.
      rewrite Hr1 in Hget2.
      rewrite (Hnone r2 (or_intror Hget2)) in Hdep2. discriminate. }
    destruct (Hout2 n Hn2) as (Ha2 & Hr2 & He2).
    rewrite Ha2, Hr2, Ha1, Hr1, isShowing_evaluations_app, He1, He2. auto.
Qed.

(** [propagated] reads the tables and the dependencies of [s] only, and of
    the evaluations only those of conditionals. *)
Lemma propagated_ext name s0 s s' evs0 evs :
  formFields s0 = formFields s ->
  conditionallyRemovedFormFields s0 = conditionallyRemovedFormFields s ->
  (forall r, depends_on s0 name r = depends_on s name r) ->
  (forall n, isShowing_evaluations n evs0 = isShowing_evaluations n evs) ->
  propagated name s s' evs -> propagated name s0 s' evs0.
Proof.
  intros Ha Hr Hd He (H1 & H2 & H3 & H4).
  unfold propagated, held. rewrite Ha, Hr.
  split; [|split; [|split]].
  - intros n r Hn Hdep. rewrite He. apply H1; [exact Hn | now rewrite <- Hd].
  - intros n r Hn1 Hn2 Hdep. rewrite He.
    apply H2; [exact Hn1 | exact Hn2 | now rewrite <- Hd].
  - intros n ra rr Hn1 Hd1 Hn2 Hd2. rewrite He.
    apply H3 with (rr := rr); auto; now rewrite <- Hd.
  - intros n Hn. rewrite He. apply H4. intros r Hh. rewrite <- Hd. now apply Hn.
Qed.

(** *** The writes before the propagation *)

Lemma deref_store s r g r' :
  deref (state_after (store r g) s) r' =
  if Nat.eqb r r' && Nat.ltb r (length (heap s)) then g (deref s r')
  else deref s r'.
Proof. unfold deref. rewrite state_after_store. simpl. apply nth_update_nth. Qed.

Lemma depends_on_store s r g name r' :
  (forall f, FormField.conditional (g f) = FormField.conditional f) ->
  depends_on (state_after (store r g) s) name r' = depends_on s name r'.
Proof.
  intros Hg. unfold depends_on. rewrite deref_store.
  destruct (Nat.eqb r r' && Nat.ltb r (length (heap s))); [|reflexivity].
  now rewrite Hg.
Qed.

Ltac step_bind H :=
  rewrite (@bind_run _ _ _ _ _ _ _ _ H);
  unfold completion_of, state_after, evaluations_of; cbv beta.

(** A value change on a field of [formFields], with a value that differs:
    the call returns normally, and its conditionals are those of
    [propagation]. *)
Lemma updateFormFieldStateOnValueChange_evaluations s name v rA :
  nodup_tables s ->
  ordinary_keys s = true ->
  get name (formFields s) = Some rA ->
  strict_equal (FormField.value (deref s rA)) v = false ->
  exists s' evs,
    updateFormFieldStateOnValueChange name v s = (Normal tt, s', evs)
    /\ propagated name s s' evs.
Proof.
  intros Hnd Hord Hget Hdiff.
  pose (s_a := state_after (store rA (FormField.set_isTouched true)) s).
  pose (s_b := state_after (store rA (FormField.set_value v)) s_a).
  destruct (@runValidations_spec s_b name rA Hget)
    as (validityObj & evs_v & _ & Hno & Hrv).
  pose (s_c :=
          state_after
            (store rA
               (FormField.set_errorMessage (validity_errorMessage validityObj)))
            (state_after
               (store rA (FormField.set_isValid (validity_isValid validityObj)))
               s_b)).
  change (runValidations name s_b = (Normal tt, s_c, evs_v)) in Hrv.
  assert (Hdeps : forall r, depends_on s name r = depends_on s_c name r).
  { intros r. unfold s_c, s_b, s_a. now rewrite !depends_on_store. }
  destruct (@propagation_spec name s_c Hnd Hord)
    as (s' & evs_p & Hprop & _ & Hpropagated).
  exists s', (evs_v ++ evs_p)%list. split.
  - assert (E4 : (runValidations name ;;; propagation name) s_b
                 = (Normal tt, s', (evs_v ++ evs_p)%list)).
    { step_bind Hrv. now rewrite Hprop. }
    assert (E3 : (store rA (FormField.set_value v) ;;;
                  runValidations name ;;; propagation name) s_a
                 = (Normal tt, s', (evs_v ++ evs_p)%list)).
    { step_bind (eq_refl : store rA (FormField.set_value v) s_a
                           = (Normal tt, s_b, [])).
      now rewrite E4. }
    assert (Hval : FormField.value (deref s_a rA) = FormField.value (deref s rA)).
    { unfold s_a. rewrite deref_store.
      now destruct (Nat.eqb rA rA && Nat.ltb rA (length (heap s))). }
    rewrite updateFormFieldStateOnValueChange_unfold.
    step_bind (eq_refl : this s = (Normal s, s, [])).
    rewrite (@read_own _ _ _ _ Hget).
    step_bind (eq_refl : store rA (FormField.set_isTouched true) s
                         = (Normal tt, s_a, [])).
    step_bind (eq_refl : load rA s_a = (Normal (deref s_a rA), s_a, [])).
    rewrite Hval, Hdiff. now rewrite E3.
  - apply (@propagated_ext name s s_c s' (evs_v ++ evs_p)%list evs_p);
      [reflexivity | reflexivity | exact Hdeps | | exact Hpropagated].
    intros n. now rewrite isShowing_evaluations_app, Hno.
Qed.

(** ** Calls that end outside the model *)

Lemma stays_bind (A B : Type) (m : M A) (k : A -> M B) s :
  stays m s ->
  (forall a s1 e1, m s = (Normal a, s1, e1) -> stays (k a) s1) ->
  stays (bind m k) s.
Proof.
  unfold stays, completion_of, bind. intros Hm Hk.
  destruct (m s) as [[c s1] e1] eqn:E. destruct c as [a|msg|why]; simpl in *.
  - specialize (Hk a s1 e1 eq_refl). now destruct (k a s1) as [[c2 s2] e2].
  - reflexivity.
  - discriminate Hm.
Qed.

Lemma stays_bind_always (A B : Type) (m : M A) (k : A -> M B) :
  (forall s, stays m s) -> (forall a s, stays (k a) s) ->
  forall s, stays (bind m k) s.
Proof. intros Hm Hk s. apply stays_bind; auto. Qed.

Lemma stays_forEach (A : Type) (body : A -> M unit) l :
  (forall x s, stays (body x) s) -> forall s, stays (forEach l body) s.
Proof.
  intros Hb. induction l as [|x l IH]; simpl; [reflexivity|].
  apply stays_bind_always; auto.
Qed.

Lemma stays_filterM (A : Type) (p : A -> M bool) l :
  (forall x s, stays (p x) s) -> forall s, stays (filterM p l) s.
Proof.
  intros Hp. induction l as [|x l IH]; simpl; [reflexivity|].
  apply stays_bind_always; [apply Hp|]. intros b.
  apply stays_bind_always; [exact IH|]. reflexivity.
Qed.

Lemma stays_hasDependency name o s : stays (hasDependency name o) s.
Proof. destruct o; reflexivity. Qed.

Lemma stays_runConditional name reason s : stays (runConditional name reason) s.
Proof.
  unfold stays, completion_of. destruct (selected s name) as [r|] eqn:E.
  - now rewrite (@runConditional_spec s name reason r E).
  - now rewrite (@runConditional_absent s name reason E).
Qed.

Lemma stays_propagation name s : stays (propagation name) s.
Proof.
  revert s. unfold propagation.
  apply stays_bind_always; [reflexivity|]. intros s1.
  apply stays_bind_always.
  { apply stays_filterM. intros n. apply stays_bind_always; [reflexivity|].
    intros s'. apply stays_hasDependency. }
  intros l1. apply stays_bind_always.
  { apply stays_forEach. intros n. apply stays_runConditional. }
  intros _. apply stays_bind_always; [reflexivity|]. intros s2.
  apply stays_bind_always.
  { apply stays_filterM. intros n. apply stays_bind_always; [reflexivity|].
    intros s'. apply stays_hasDependency. }
  intros l2. apply stays_forEach. intros n. apply stays_runConditional.
Qed.

Lemma stays_runValidations s name r :
  get name (formFields s) = Some r -> stays (runValidations name) s.
Proof.
  intros Hget. unfold stays, completion_of.
  destruct (@runValidations_spec s name r Hget) as (vo & evs & _ & _ & Hrun).
  now rewrite Hrun.
Qed.

Lemma stays_updateFormFieldStateOnBlur s name r :
  get name (formFields s) = Some r -> stays (updateFormFieldStateOnBlur name) s.
Proof.
  intros Hget. unfold updateFormFieldStateOnBlur.
  apply stays_bind; [reflexivity|]. intros s0 s1 e1 E.
  injection E as <- <- _. clear e1. rewrite (@read_own _ _ _ _ Hget).
  apply stays_bind; [reflexivity|]. intros a s1 e1 E.
  injection E as _ <- _. now apply (@stays_runValidations _ name r).
Qed.

Lemma stays_updateFormFieldStateOnValueChange s name v r :
  get name (formFields s) = Some r ->
  stays (updateFormFieldStateOnValueChange name v) s.
Proof.
  intros Hget. rewrite updateFormFieldStateOnValueChange_unfold.
  apply stays_bind; [reflexivity|]. intros s0 s1 e1 E.
  injection E as <- <- _. clear e1. rewrite (@read_own _ _ _ _ Hget).
  apply stays_bind; [reflexivity|]. intros a s1 e1 E.
  injection E as _ <- _. clear e1.
  apply stays_bind; [reflexivity|]. intros f s2 e2 E.
  injection E as _ <- _. clear e2.
  destruct (strict_equal (FormField.value f) v); [reflexivity|].
  apply stays_bind; [reflexivity|]. intros a' s3 e3 E.
  injection E as _ <- _. clear e3.
  apply stays_bind; [now apply (@stays_runValidations _ name r)|].
  intros a'' s4 e4 _. apply stays_propagation.
Qed.

(** A call ends outside the model exactly when it is not one of the calls
    [modelled] lists. *)
Lemma leaves_model_spec c s : leaves_model c s = negb (modelled c s).
Proof.
  assert (Hread : forall n,
             match read n (formFields s) with
             | Inherited _ => inherited n && negb (has n (formFields s)) = true
             | _ => inherited n && negb (has n (formFields s)) = false
             end).
  { intros n. unfold read, has. destruct (get n (formFields s)).
    - apply andb_false_r.
    - now destruct (inherited n). }
  destruct c; simpl.
  - unfold completion_of. rewrite addFormField_run.
    now destruct (String.eqb name "__proto__").
  - reflexivity.
  - specialize (Hread name).
    destruct (read name (formFields s)) as [r|k|] eqn:E; rewrite Hread; simpl.
    + apply read_Own_inv in E. now apply (@stays_runValidations s name r).
    + unfold runValidations, completion_of, bind, this. now rewrite E.
    + unfold runValidations, completion_of, bind, this. now rewrite E.
  - apply stays_runConditional.
  - specialize (Hread name).
    destruct (read name (formFields s)) as [r|k|] eqn:E; rewrite Hread; simpl.
    + apply read_Own_inv in E.
      now apply (@stays_updateFormFieldStateOnValueChange s name newValue r).
    + unfold updateFormFieldStateOnValueChange, completion_of, bind, this.
      now rewrite E.
    + unfold updateFormFieldStateOnValueChange, completion_of, bind, this.
      now rewrite E.
  - specialize (Hread name).
    destruct (read name (formFields s)) as [r|k|] eqn:E; rewrite Hread; simpl.
    + apply read_Own_inv in E.
      now apply (@stays_updateFormFieldStateOnBlur s name r).
    + unfold updateFormFieldStateOnBlur, completion_of, bind, this.
      now rewrite E.
    + unfold updateFormFieldStateOnBlur, completion_of, bind, this.
      now rewrite E.
  - reflexivity.
  - reflexivity.
Qed.

(** ** Managers built by calls *)

Lemma nodup_tables_call c s : nodup_tables_stay s (call c s).
Proof.
  destruct c; simpl.
  - intros [Ha Hr]. unfold state_after. rewrite addFormField_run.
    destruct (String.eqb name "__proto__"); split; simpl; auto using NoDup_set.
  - intros [Ha Hr]. unfold state_after. rewrite removeFormField_spec.
    split; simpl; auto using NoDup_delete.
  - apply (keeps_runValidations nodup_tables_stay_refl nodup_tables_stay_trans);
      intros; apply nodup_tables_stay_store.
  - apply nodup_tables_stay_runConditional.
  - apply (keeps_updateFormFieldStateOnValueChange
             nodup_tables_stay_refl nodup_tables_stay_trans);
      intros; try apply nodup_tables_stay_store.
    apply nodup_tables_stay_runConditional.
  - apply (keeps_updateFormFieldStateOnBlur
             nodup_tables_stay_refl nodup_tables_stay_trans);
      intros; apply nodup_tables_stay_store.
  - apply nodup_tables_stay_store.
  - apply nodup_tables_stay_store.
Qed.

(** Every manager built from [new FormManager()] by calls has tables
    without repeated names. *)
Lemma nodup_tables_calls cs :
  forall s, nodup_tables s -> nodup_tables (calls cs s).
Proof.
  induction cs as [|c cs IH]; intros s H; simpl; auto.
  apply IH. now apply nodup_tables_call.
Qed.

Lemma nodup_tables_new : nodup_tables new_FormManager.
Proof. split; constructor. Qed.

Lemma refs_in_heap_stay_refl s : refs_in_heap_stay s s.
Proof. intros H. exact H. Qed.

Lemma refs_in_heap_stay_trans s1 s2 s3 :
  refs_in_heap_stay s1 s2 -> refs_in_heap_stay s2 s3 -> refs_in_heap_stay s1 s3.
Proof. unfold refs_in_heap_stay. auto. Qed.

Lemma refs_in_heap_stay_store r g : keeps refs_in_heap_stay (store r g).
Proof.
  intros s H n r' Hn. rewrite state_after_store. simpl.
  rewrite length_update_nth. now apply (H n).
Qed.

Lemma refs_in_heap_stay_runConditional n reason :
  keeps refs_in_heap_stay (runConditional n reason).
Proof.
  intros s H. unfold state_after. destruct (selected s n) as [r|] eqn:E.
  - rewrite (@runConditional_spec s n reason r E). simpl.
    assert (Hr : r < length (heap s)).
    { apply (H n). now apply held_selected. }
    intros m r' Hm. rewrite heap_filed. unfold filed in Hm.
    destruct (isShowing_of s reason r); simpl in Hm;
      destruct Hm as [Hm|Hm];
      try (apply get_set_inv in Hm; destruct Hm as [->|Hm]; [exact Hr|]);
      try apply get_delete_inv in Hm; apply (H m); auto.
  - now rewrite (@runConditional_absent s n reason E).
Qed.

Lemma refs_in_heap_call c s : refs_in_heap_stay s (call c s).
Proof.
  destruct c; simpl.
  - intros H n r Hn. rewrite heap_after_addFormField.
    unfold state_after in Hn. rewrite addFormField_run in Hn.
    rewrite length_app. simpl.
    destruct (String.eqb name "__proto__"); simpl in Hn.
    + specialize (H n r Hn). lia.
    + destruct Hn as [Hn|Hn].
      * apply get_set_inv in Hn. destruct Hn as [->|Hn]; [lia|].
        specialize (H n r (or_introl Hn)). lia.
      * specialize (H n r (or_intror Hn)). lia.
  - intros H n r Hn. unfold state_after in *.
    rewrite removeFormField_spec in *. simpl in *. destruct Hn as [Hn|Hn].
    + apply get_delete_inv in Hn. apply (H n). now left.
    + apply (H n). now right.
  - apply (keeps_runValidations refs_in_heap_stay_refl refs_in_heap_stay_trans);
      intros; apply refs_in_heap_stay_store.
  - apply refs_in_heap_stay_runConditional.
  - apply (keeps_updateFormFieldStateOnValueChange
             refs_in_heap_stay_refl refs_in_heap_stay_trans);
      intros; try apply refs_in_heap_stay_store.
    apply refs_in_heap_stay_runConditional.
  - apply (keeps_updateFormFieldStateOnBlur
             refs_in_heap_stay_refl refs_in_heap_stay_trans);
      intros; apply refs_in_heap_stay_store.
  - apply refs_in_heap_stay_store.
  - apply refs_in_heap_stay_store.
Qed.

(** Every manager built from [new FormManager()] by calls keeps its
    references inside the heap: [deref] never reads its default there. *)
Lemma wf_step cs :
  forall s,
    nodup_tables s /\ refs_in_heap s ->
    nodup_tables (calls cs s) /\ refs_in_heap (calls cs s).
Proof.
  induction cs as [|c cs IH]; intros s [Hn Hr]; simpl; auto.
  apply IH. split; [now apply nodup_tables_call | now apply refs_in_heap_call].
Qed.

Lemma wf_new : nodup_tables new_FormManager /\ refs_in_heap new_FormManager.
Proof.
  split; [apply nodup_tables_new|]. intros n r [H|H]; discriminate H.
Qed.

(** ** How often a dependent is evaluated *)

Lemma nodup_tables_fan_out_form : nodup_tables fan_out_form.
Proof. apply nodup_tables_calls, nodup_tables_new. Qed.

(** C1, as the spec states it, fails: in [fan_out_form], where no name is in
    both tables, a change of [A] evaluates the conditional of [B] twice. *)
Lemma dependents_evaluated_once_counterexample :
  ~ (forall s name v rA n r,
        nodup_tables s ->
        (forall m, get m (formFields s) = None
                   \/ get m (conditionallyRemovedFormFields s) = None) ->
        get name (formFields s) = Some rA ->
        strict_equal (FormField.value (deref s rA)) v = false ->
        get n (formFields s) = Some r
        \/ get n (conditionallyRemovedFormFields s) = Some r ->
        depends_on s name r = true ->
        length (isShowing_evaluations n
                  (evaluations_of (updateFormFieldStateOnValueChange name v) s))
        = 1).
Proof.
  intros H.
  specialize (H fan_out_form "A" (VString "x") 0 "B" 1
                nodup_tables_fan_out_form
                (fun m => or_intror eq_refl) eq_refl eq_refl
                (or_introl eq_refl) eq_refl).
  discriminate H.
Qed.

(** C1, amended.  Take a manager none of whose keys is the name of a member
    of [Object.prototype], and a value change of [name], a key of
    [formFields], to a different value.  The list of dependents in
    [formFields] is taken before the first pass and the list of dependents
    among the removed fields is taken after it, and [runConditional] looks a
    name up in [formFields] first.  The call returns normally, and for every
    key [n]:
    - a dependent that [formFields] holds under [n] is evaluated once when
      its conditional answers [true], and a second time, by the second
      pass, when it answers [false]; it ends in the table the last answer
      chose, and it alone is held under [n];
    - a dependent that the table of removed fields holds under [n], when
      [n] is not a key of [formFields], is evaluated exactly once and ends in
      the table the answer chose;
    - when [n] is a key of both tables and only the removed field depends on
      [name], that dependent is evaluated zero times: the conditional of the
      field [formFields] holds under [n] is evaluated once in its place,
      that field is filed by the answer, and the removed dependent is held
      by neither table afterwards. *)
Theorem dependents_evaluated_once_or_twice
    (s : FormManager) (name : string) (v : Value) (rA : Ref) :
  nodup_tables s ->
  ordinary_keys s = true ->
  get name (formFields s) = Some rA ->
  strict_equal (FormField.value (deref s rA)) v = false ->
  let evs := evaluations_of (updateFormFieldStateOnValueChange name v) s in
  let s' := state_after (updateFormFieldStateOnValueChange name v) s in
  completion_of (updateFormFieldStateOnValueChange name v) s = Normal tt
  /\ (forall n r,
        get n (formFields s) = Some r ->
        depends_on s name r = true ->
        (isShowing_evaluations n evs = [EvIsShowing n r name true]
         /\ get n (formFields s') = Some r
         /\ get n (conditionallyRemovedFormFields s') = None)
        \/ exists b : bool,
             isShowing_evaluations n evs =
               [EvIsShowing n r name false; EvIsShowing n r name b]
             /\ get n (formFields s') = (if b then Some r else None)
             /\ get n (conditionallyRemovedFormFields s')
                = (if b then None else Some r))
  /\ (forall n r,
        get n (formFields s) = None ->
        get n (conditionallyRemovedFormFields s) = Some r ->
        depends_on s name r = true ->
        exists b : bool,
          isShowing_evaluations n evs = [EvIsShowing n r name b]
          /\ get n (formFields s') = (if b then Some r else None)
          /\ get n (conditionallyRemovedFormFields s')
             = (if b then None else Some r))
  /\ (forall n ra rr,
        get n (formFields s) = Some ra ->
        depends_on s name ra = false ->
        get n (conditionallyRemovedFormFields s) = Some rr ->
        depends_on s name rr = true ->
        exists b : bool,
          isShowing_evaluations n evs = [EvIsShowing n ra name b]
          /\ get n (formFields s') = (if b then Some ra else None)
          /\ get n (conditionallyRemovedFormFields s')
             = (if b then None else Some ra)).
Proof.
  intros Hnd Hord Hget Hdiff.
  destruct (@updateFormFieldStateOnValueChange_evaluations s name v rA
              Hnd Hord Hget Hdiff)
    as (s' & evs' & Hrun & Hactive & Hremoved & Hboth & _).
  unfold completion_of, evaluations_of, state_after. rewrite Hrun. simpl.
  split; [reflexivity|]. split; [exact Hactive|]. split; assumption.
Qed.

Lemma dependents_evaluated_once_or_twice_witness :
  ordinary_keys fan_out_form = true
  /\ get "A" (formFields fan_out_form) = Some 0
  /\ get "B" (formFields fan_out_form) = Some 1
  /\ depends_on fan_out_form "A" 1 = true
  /\ (let evs :=
        evaluations_of
          (updateFormFieldStateOnValueChange "A" (VString "x")) fan_out_form in
      isShowing_evaluations "B" evs = [EvIsShowing "B" 1 "A" true]
      \/ exists b,
           isShowing_evaluations "B" evs =
             [EvIsShowing "B" 1 "A" false; EvIsShowing "B" 1 "A" b]).
Proof.
  split; [reflexivity|].
  split; [reflexivity|]. split; [reflexivity|]. split; [reflexivity|].
  destruct (proj1 (proj2
              (@dependents_evaluated_once_or_twice fan_out_form "A"
                 (VString "x") 0
                 nodup_tables_fan_out_form eq_refl eq_refl eq_refl))
              "B" 1 eq_refl eq_refl)
    as [(He & _)|(b & He & _)].
  - left. exact He.
  - right. exists b. exact He.
Defined.

(** ** One level of propagation *)

Lemma nodup_tables_doubled_chain_form : nodup_tables doubled_chain_form.
Proof. apply nodup_tables_calls, nodup_tables_new. Qed.

(** C4, as the spec states it, fails: in [doubled_chain_form] the field
    that [formFields] holds under [C] depends on [B] and not on [A], yet a
    change of [A] evaluates its conditional.  The second pass lists [C]
    because the removed field of that name depends on [A], and
    [runConditional] then takes the field of [formFields]. *)
Lemma propagation_is_one_level_counterexample :
  ~ (forall s A v rA B rB C rC,
        nodup_tables s ->
        ordinary_keys s = true ->
        get A (formFields s) = Some rA ->
        strict_equal (FormField.value (deref s rA)) v = false ->
        selected s B = Some rB ->
        depends_on s A rB = true ->
        selected s C = Some rC ->
        depends_on s B rC = true ->
        depends_on s A rC = false ->
        forall b,
          ~ In (EvIsShowing C rC A b)
              (evaluations_of (updateFormFieldStateOnValueChange A v) s)).
Proof.
  intros H.
  apply (H doubled_chain_form "A" (VString "x") 0 "B" 1 "C" 3
           nodup_tables_doubled_chain_form
           eq_refl eq_refl eq_refl eq_refl eq_refl eq_refl eq_refl eq_refl
           true).
  vm_compute. auto.
Qed.

(** C4, amended.  Take a manager none of whose keys is the name of a member
    of [Object.prototype].  Let [B] be a field held by a table whose
    dependencies contain [A], and let [C] be a field whose dependencies
    contain [B] but not [A].  A value change of [A] to a different value
    returns normally and evaluates the conditional of [B].  It does not
    evaluate the conditional of [C], whatever the conditional of [B] answers
    and wherever [B] ends up, provided no field held under the name of [C]
    depends on [A].  When the name of [C] is a key of both tables and the
    removed field under it depends on [A], the conditional of [C] is
    evaluated once. *)
Theorem propagation_is_one_level
    (s : FormManager) (A : string) (v : Value) (rA : Ref)
    (B : string) (rB : Ref) (C : string) (rC : Ref) :
  nodup_tables s ->
  ordinary_keys s = true ->
  get A (formFields s) = Some rA ->
  strict_equal (FormField.value (deref s rA)) v = false ->
  selected s B = Some rB ->
  depends_on s A rB = true ->
  selected s C = Some rC ->
  depends_on s B rC = true ->
  depends_on s A rC = false ->
  let evs := evaluations_of (updateFormFieldStateOnValueChange A v) s in
  completion_of (updateFormFieldStateOnValueChange A v) s = Normal tt
  /\ (exists b rest,
        isShowing_evaluations B evs = EvIsShowing B rB A b :: rest)
  /\ ((forall r, held s C r -> depends_on s A r = false) ->
      isShowing_evaluations C evs = [])
  /\ (forall rr,
        get C (formFields s) = Some rC ->
        get C (conditionallyRemovedFormFields s) = Some rr ->
        depends_on s A rr = true ->
        exists b, isShowing_evaluations C evs = [EvIsShowing C rC A b]).
Proof.
  intros Hnd Hord Hget Hdiff HB HdepB HC HdepC HnotA.
  destruct (@updateFormFieldStateOnValueChange_evaluations s A v rA
              Hnd Hord Hget Hdiff)
    as (s' & evs' & Hrun & Hactive & Hremoved & Hboth & Hnone).
  unfold completion_of, evaluations_of. rewrite Hrun. simpl.
  split; [reflexivity|]. split; [|split].
  - destruct (@selected_Some_inv s B rB HB) as [Ha|(Ha & _ & Hr)].
    + destruct (Hactive B rB Ha HdepB) as [(He & _)|(b & He & _)];
        rewrite He; eauto.
    + destruct (Hremoved B rB Ha Hr HdepB) as (b & He & _). rewrite He. eauto.
  - intros Hheld. now apply Hnone.
  - intros rr Ha Hr Hdep.
    destruct (Hboth C rC rr Ha HnotA Hr Hdep) as (b & He & _). eauto.
Qed.

Lemma nodup_tables_chain_form : nodup_tables chain_form.
Proof. apply nodup_tables_calls, nodup_tables_new. Qed.

Lemma chain_form_C_not_on_A r :
  held chain_form "C" r -> depends_on chain_form "A" r = false.
Proof. intros [H|H]; [injection H as <-; reflexivity | discriminate H]. Qed.

Lemma propagation_is_one_level_witness :
  let evs :=
    evaluations_of (updateFormFieldStateOnValueChange "A" (VString "x"))
      chain_form in
  ordinary_keys chain_form = true
  /\ selected chain_form "B" = Some 1
  /\ selected chain_form "C" = Some 2
  /\ completion_of (updateFormFieldStateOnValueChange "A" (VString "x"))
       chain_form = Normal tt
  /\ (exists b rest,
        isShowing_evaluations "B" evs = EvIsShowing "B" 1 "A" b :: rest)
  /\ isShowing_evaluations "C" evs = [].
Proof.
  intros evs. split; [reflexivity|]. split; [reflexivity|].
  split; [reflexivity|].
  destruct (@propagation_is_one_level chain_form "A" (VString "x") 0 "B" 1
              "C" 2 nodup_tables_chain_form
              eq_refl eq_refl eq_refl eq_refl eq_refl eq_refl eq_refl eq_refl)
    as (Hnormal & HB & HC & _).
  split; [exact Hnormal|]. split; [exact HB|].
  apply HC. exact chain_form_C_not_on_A.
Defined.

(** ** The scenario of the spec

    [state] stays in [formFields] when [country] becomes ["US"], moves to the
    table of removed fields when it becomes ["CA"], where [getValues()] no
    longer lists it, and comes back with ["US"]. *)
Example country_state_scenario :
  let us := call (UpdateFormFieldStateOnValueChange "country" (VString "US"))
              country_state_form in
  let ca := call (UpdateFormFieldStateOnValueChange "country" (VString "CA")) us in
  let back := call (UpdateFormFieldStateOnValueChange "country" (VString "US")) ca in
  formFields us = [("country", 0); ("state", 1)]
  /\ formFields ca = [("country", 0)]
  /\ conditionallyRemovedFormFields ca = [("state", 1)]
  /\ completion_of getValues ca = Normal [("country", VString "CA")]
  /\ formFields back = [("country", 0); ("state", 1)]
  /\ conditionallyRemovedFormFields back = [].
Proof. repeat split; reflexivity. Qed.

(** * Further properties of the operations *)

(** ** Adding a field *)

(** X1.  [addFormField(name, initialValue)], for a name other than
    [__proto__], never throws and runs no callback.  It returns a reference
    that was not in the heap; behind it is a field with the given name and
    value, not valid, not touched, with the empty message, no rule and the
    default conditional.  Afterwards [getVisibleFormFieldByName(name)] finds
    that field, whatever [formFields] held under the name before; the
    entries of the other names, the table of conditionally removed fields
    and every field object that existed are as they were.  (Under
    [__proto__] the assignment of line 91 creates no key: it replaces the
    prototype of [formFields].) *)
Theorem addFormField_adds_fresh_default_field
    (s : FormManager) (name : string) (v : Value) :
  String.eqb name "__proto__" = false ->
  let r := length (heap s) in
  let s' := state_after (addFormField name v) s in
  completion_of (addFormField name v) s = Normal r
  /\ evaluations_of (addFormField name v) s = []
  /\ nth_error (heap s) r = None
  /\ nth_error (heap s') r = Some (FormField.new name v)
  /\ completion_of (getVisibleFormFieldByName name) s' = Normal (Own r)
  /\ (forall k, k <> name -> get k (formFields s') = get k (formFields s))
  /\ conditionallyRemovedFormFields s' = conditionallyRemovedFormFields s
  /\ (forall r' f, nth_error (heap s) r' = Some f ->
                   nth_error (heap s') r' = Some f).
Proof.
  intros Hname. unfold state_after, completion_of, evaluations_of.
  rewrite addFormField_run, Hname. simpl. repeat split.
  - apply nth_error_None. lia.
  - rewrite nth_error_app2 by lia. now rewrite Nat.sub_diag.
  - unfold getVisibleFormFieldByName. unfold_monad. simpl.
    now rewrite (@read_own _ _ _ _ (get_set_same name _ (formFields s))).
  - intros k Hk. apply get_set_other. congruence.
  - intros r' f Hf. rewrite nth_error_app1; [exact Hf|].
    apply nth_error_Some. congruence.
Qed.

Lemma addFormField_adds_fresh_default_field_witness :
  completion_of (addFormField "toString" VNaN) hidden_form = Normal 1
  /\ completion_of (getVisibleFormFieldByName "toString")
       (state_after (addFormField "toString" VNaN) hidden_form)
     = Normal (Own 1).
Proof.
  destruct (@addFormField_adds_fresh_default_field hidden_form "toString" VNaN
              eq_refl)
    as (Hret & _ & _ & _ & Hfound & _).
  split; [exact Hret | exact Hfound].
Defined.

(** X2.  A field that has just been added is not valid, so right after
    [addFormField], for a name other than [__proto__], the form is not
    valid: [isFormValid()] returns [false] until the new field has been
    validated, whatever its rules. *)
Theorem isFormValid_false_after_addFormField
    (s : FormManager) (name : string) (v : Value) :
  String.eqb name "__proto__" = false ->
  completion_of isFormValid (state_after (addFormField name v) s)
    = Normal false.
Proof.
  intros Hname.
  unfold completion_of. rewrite isFormValid_spec. simpl. f_equal.
  apply not_true_is_false. intros Hall.
  rewrite forallb_forall in Hall.
  assert (Hin : In name (Object_keys
                           (formFields (state_after (addFormField name v) s)))).
  { apply In_Object_keys. unfold state_after.
    rewrite addFormField_run, Hname. simpl.
    rewrite get_set_same. discriminate. }
  specialize (Hall name Hin). unfold valid_at, state_after, deref in Hall.
  rewrite addFormField_run, Hname in Hall. simpl in Hall.
  rewrite get_set_same in Hall.
  rewrite app_nth2 in Hall by lia. rewrite Nat.sub_diag in Hall.
  discriminate Hall.
Qed.

Lemma isFormValid_false_after_addFormField_witness :
  completion_of isFormValid
    (state_after (addFormField "b" (VString "")) hidden_form)
  = Normal false.
Proof.
  apply (@isFormValid_false_after_addFormField hidden_form "b" (VString "")).
  reflexivity.
Defined.

Lemma delete_set_absent (A : Type) k (v : A) o :
  get k o = None -> delete k (set k v o) = o.
Proof.
  induction o as [|[k' v'] o IH]; simpl.
  - intros _. now rewrite String.eqb_refl.
  - destruct (String.eqb k k') eqn:E; [discriminate|]. intros H. simpl.
    rewrite E. now rewrite IH.
Qed.

(** X3.  [removeFormField] undoes [addFormField], for a name other than
    [__proto__]: removing a name right after adding it returns the field
    just added and leaves no entry under the name.  When [formFields] did
    not hold the name, the two tables are back exactly as they were before
    the field was added.  When it did, the field it held is not restored:
    adding has overwritten it. *)
Theorem removeFormField_after_addFormField
    (s : FormManager) (name : string) (v : Value) :
  String.eqb name "__proto__" = false ->
  let s1 := state_after (addFormField name v) s in
  let s2 := state_after (removeFormField name) s1 in
  completion_of (removeFormField name) s1 = Normal (Own (length (heap s)))
  /\ get name (formFields s2) = None
  /\ conditionallyRemovedFormFields s2 = conditionallyRemovedFormFields s
  /\ (get name (formFields s) = None -> formFields s2 = formFields s).
Proof.
  intros Hname. unfold state_after, completion_of.
  rewrite addFormField_run, Hname, removeFormField_spec. simpl. repeat split.
  - now rewrite (@read_own _ _ _ _ (get_set_same name _ (formFields s))).
  - apply get_delete_same.
  - apply delete_set_absent.
Qed.

Lemma removeFormField_after_addFormField_witness :
  get "b" (formFields hidden_form) = None
  /\ formFields
       (state_after (removeFormField "b")
          (state_after (addFormField "b" VNull) hidden_form))
     = formFields hidden_form.
Proof.
  split; [reflexivity|].
  apply (proj2 (proj2 (proj2
           (@removeFormField_after_addFormField hidden_form "b" VNull
              eq_refl)))).
  reflexivity.
Defined.

(** ** Names that are not there *)

Lemma runValidations_missing s name :
  inherited name = false ->
  get name (formFields s) = None ->
  runValidations name s = (Throw (does_not_exist name), s, []).
Proof.
  intros Hord H. unfold runValidations. unfold bind, this.
  now rewrite (@read_ordinary _ _ (formFields s) Hord), H.
Qed.

(** X4.  [runValidations], [updateFormFieldStateOnValueChange] and
    [updateFormFieldStateOnBlur] look the name up in [formFields] only.  On
    a name that is not a key of it, a conditionally removed one included,
    and that no object inherits from [Object.prototype], each throws the
    error "<name> form field does not exist." before it has written anything
    or run any callback; [runConditional] throws the same error, again with
    nothing written, only when the name is in neither table.  On a name that
    is not a key of [formFields] but is inherited, such as [toString], the
    guard of [runConditional] finds the inherited member: the call throws a
    [TypeError], with nothing written and no conditional evaluated, even
    when the table of removed fields holds a field of that name. *)
Theorem missing_name_throws_and_writes_nothing
    (s : FormManager) (name : string) :
  get name (formFields s) = None ->
  (inherited name = false ->
   runValidations name s = (Throw (does_not_exist name), s, [])
   /\ (forall v, updateFormFieldStateOnValueChange name v s
                 = (Throw (does_not_exist name), s, []))
   /\ updateFormFieldStateOnBlur name s = (Throw (does_not_exist name), s, [])
   /\ (get name (conditionallyRemovedFormFields s) = None ->
       forall reason,
         runConditional name reason s = (Throw (does_not_exist name), s, [])))
  /\ (inherited name = true ->
      forall reason,
        runConditional name reason s = (Throw TypeError_undefined, s, [])).
Proof.
  intros H. split.
  - intros Hord. split; [now apply runValidations_missing|]. split; [|split].
    + intros v. unfold updateFormFieldStateOnValueChange.
      unfold bind, this.
      now rewrite (@read_ordinary _ _ (formFields s) Hord), H.
    + unfold updateFormFieldStateOnBlur. unfold bind, this.
      now rewrite (@read_ordinary _ _ (formFields s) Hord), H.
    + intros Hr reason.
      rewrite runConditional_absent.
      * unfold runConditional_failure.
        now rewrite (@read_ordinary _ _ (formFields s) Hord), H.
      * rewrite (@selected_ordinary s name Hord). now rewrite H.
  - intros Hinh reason.
    rewrite runConditional_absent.
    + unfold runConditional_failure.
      now rewrite (@read_inherited _ _ (formFields s) Hinh H).
    + unfold selected. now rewrite (@read_inherited _ _ (formFields s) Hinh H).
Qed.

Lemma missing_name_throws_and_writes_nothing_witness :
  get "a" (formFields hidden_form) = None
  /\ get "a" (conditionallyRemovedFormFields hidden_form) = Some 0
  /\ updateFormFieldStateOnValueChange "a" (VString "x") hidden_form
     = (Throw "a form field does not exist.", hidden_form, [])
  /\ get "toString" (conditionallyRemovedFormFields hidden_toString_form)
     = Some 0
  /\ runConditional "toString" "x" hidden_toString_form
     = (Throw TypeError_undefined, hidden_toString_form, []).
Proof.
  split; [reflexivity|]. split; [reflexivity|]. split; [|split].
  - apply (proj1 (proj2 (proj1
             (@missing_name_throws_and_writes_nothing hidden_form "a" eq_refl)
             eq_refl)) (VString "x")).
  - reflexivity.
  - apply (proj2 (@missing_name_throws_and_writes_nothing
                    hidden_toString_form "toString" eq_refl)
             eq_refl "x").
Defined.

(** ** What [runValidations] writes *)

Lemma getValidityOfFormField_loop_result formField v s rules i :
  exists evs,
    getValidityOfFormField_loop formField v i rules s
      = (Normal (validity_of (first_failing s v rules)), s, evs)
    /\ forall n, isShowing_evaluations n evs = [].
Proof.
  revert i. induction rules as [|q rules IH]; intros i; simpl.
  - exists []. split; reflexivity.
  - destruct (IH (S i)) as (evs & Hrun & Hno).
    unfold first_failing. simpl.
    destruct (ValidationRule.validate q v (view s)) eqn:E; simpl.
    + exists (EvValidate formField i true :: evs). split; [|exact Hno].
      unfold bind at 1, this at 1. unfold bind at 1, observe at 1.
      rewrite E. simpl. now rewrite Hrun.
    + exists [EvValidate formField i false]. split; [|reflexivity].
      unfold bind at 1, this at 1. unfold bind at 1, observe at 1.
      rewrite E. reflexivity.
Qed.

(** [runValidations] on a field of [formFields]: the run, and the cell of
    the field afterwards. *)
Lemma runValidations_cell s name r f :
  get name (formFields s) = Some r ->
  nth_error (heap s) r = Some f ->
  let validityObj :=
    validity_of
      (first_failing s (FormField.value f) (FormField.validationRules f)) in
  let f' :=
    FormField.set_errorMessage (validity_errorMessage validityObj)
      (FormField.set_isValid (validity_isValid validityObj) f) in
  exists s' evs,
    runValidations name s = (Normal tt, s', evs)
    /\ (forall n, isShowing_evaluations n evs = [])
    /\ formFields s' = formFields s
    /\ conditionallyRemovedFormFields s' = conditionallyRemovedFormFields s
    /\ nth_error (heap s') r = Some f'
    /\ (forall r', r' <> r -> nth_error (heap s') r' = nth_error (heap s) r').
Proof.
  intros Hget Hcell validityObj f'.
  destruct (@runValidations_spec s name r Hget)
    as (vo & evs & Hv & Hno & Hrun).
  assert (Hvo : vo = validityObj).
  { unfold getValidityOfFormField, bind, load in Hv.
    destruct (getValidityOfFormField_loop_result r
                (FormField.value (deref s r)) s
                (FormField.validationRules (deref s r)) 0)
      as (evs' & Hloop & _).
    rewrite Hloop in Hv. unfold deref in Hv.
    rewrite (nth_error_nth _ _ _ Hcell) in Hv.
    injection Hv as Hv _. now symmetry. }
  subst vo. eexists _, evs. split; [exact Hrun|]. split; [exact Hno|].
  simpl. repeat split.
  - rewrite !nth_error_update_nth_same, Hcell. reflexivity.
  - intros r' Hr'. rewrite !nth_error_update_nth_other by congruence.
    reflexivity.
Qed.

Lemma find_first_failing (p : ValidationRule.t -> bool) pre rule post :
  forallb p pre = true -> p rule = false ->
  find (fun q => negb (p q)) (pre ++ rule :: post) = Some rule.
Proof.
  intros Hpre Hrule. induction pre as [|q pre IH]; simpl in *.
  - now rewrite Hrule.
  - apply andb_true_iff in Hpre. destruct Hpre as [Hq Hpre].
    rewrite Hq. simpl. now apply IH.
Qed.

Lemma find_none_all_pass (p : ValidationRule.t -> bool) rules :
  find (fun q => negb (p q)) rules = None <-> forallb p rules = true.
Proof.
  induction rules as [|q rules IH]; simpl; [tauto|].
  destruct (p q); simpl; [exact IH | split; discriminate].
Qed.

Lemma isValid_of_first_failing s v rules :
  validity_isValid (validity_of (first_failing s v rules))
  = forallb (fun q => ValidationRule.validate q v (view s)) rules.
Proof.
  unfold first_failing.
  destruct (find (fun q => negb (ValidationRule.validate q v (view s))) rules)
    as [bad|] eqn:Efind; simpl.
  - symmetry. apply not_true_is_false. intros Hall.
    apply find_none_all_pass in Hall. congruence.
  - symmetry. now apply find_none_all_pass.
Qed.

(** X5.  [runValidations(name)] on a field of [formFields] returns normally
    and writes two members of that field and nothing else: [isValid] becomes
    [true] exactly when every rule of the field passes on its value, and
    [errorMessage] becomes the message of the first failing rule, or the
    empty string when the field is valid.  The value, the touched flag, the
    rules and the conditional of the field, the other field objects and
    both tables are as they were, and no conditional is evaluated. *)
Theorem runValidations_writes_validity
    (s : FormManager) (name : string) (r : Ref) (f : FormField.t) :
  get name (formFields s) = Some r ->
  nth_error (heap s) r = Some f ->
  let passes :=
    fun q => ValidationRule.validate q (FormField.value f) (view s) in
  let s' := state_after (runValidations name) s in
  completion_of (runValidations name) s = Normal tt
  /\ (forall n, isShowing_evaluations n
                  (evaluations_of (runValidations name) s) = [])
  /\ formFields s' = formFields s
  /\ conditionallyRemovedFormFields s' = conditionallyRemovedFormFields s
  /\ (forall r', r' <> r -> nth_error (heap s') r' = nth_error (heap s) r')
  /\ exists f',
       nth_error (heap s') r = Some f'
       /\ FormField.isValid f' = forallb passes (FormField.validationRules f)
       /\ (FormField.isValid f' = true -> FormField.errorMessage f' = "")
       /\ (forall pre rule post,
             FormField.validationRules f = (pre ++ rule :: post)%list ->
             forallb passes pre = true ->
             passes rule = false ->
             FormField.errorMessage f' = ValidationRule.errorMessage rule)
       /\ FormField.value f' = FormField.value f
       /\ FormField.isTouched f' = FormField.isTouched f
       /\ same_configuration f f'.
Proof.
  intros Hget Hcell passes s'. subst s'.
  destruct (@runValidations_cell s name r f Hget Hcell)
    as (s' & evs & Hrun & Hno & Ha & Hr & Hnew & Hothers).
  unfold completion_of, evaluations_of, state_after. rewrite Hrun. simpl.
  split; [reflexivity|]. split; [exact Hno|]. split; [exact Ha|].
  split; [exact Hr|]. split; [exact Hothers|].
  eexists. split; [exact Hnew|]. simpl.
  unfold first_failing.
  change (fun q => negb (ValidationRule.validate q (FormField.value f) (view s)))
    with (fun q => negb (passes q)).
  destruct (find (fun q => negb (passes q)) (FormField.validationRules f))
    as [bad|] eqn:Efind; simpl.
  - split.
    + symmetry. apply not_true_is_false. intros Hall.
      apply find_none_all_pass in Hall. congruence.
    + split; [discriminate|]. split.
      * intros pre rule post Hrules Hpre Hrule.
        rewrite Hrules, (find_first_failing passes pre rule post Hpre Hrule)
          in Efind.
        now injection Efind as ->.
      * repeat split.
  - split.
    + symmetry. now apply find_none_all_pass.
    + split; [reflexivity|]. split.
      * intros pre rule post Hrules Hpre Hrule.
        rewrite Hrules, (find_first_failing passes pre rule post Hpre Hrule)
          in Efind.
        discriminate Efind.
      * repeat split.
Qed.

Lemma runValidations_writes_validity_witness :
  get "username" (formFields username_form) = Some 0
  /\ exists f',
       nth_error
         (heap (state_after (runValidations "username") username_form)) 0
         = Some f'
       /\ FormField.isValid f' = false
       /\ FormField.errorMessage f' = "Username is required.".
Proof.
  split; [reflexivity|].
  destruct (@runValidations_writes_validity username_form "username" 0
              (deref username_form 0) eq_refl eq_refl)
    as (_ & _ & _ & _ & _ & f' & Hcell & Hvalid & _ & Hmsg & _).
  exists f'. split; [exact Hcell|]. split.
  - rewrite Hvalid. reflexivity.
  - apply (Hmsg [] USERNAME_REQUIRED_RULE
             [MIN_LENGTH_RULE "Username" 3
                "Username should contain at least 3 characters."]);
      reflexivity.
Defined.

(** ** Losing focus *)

(** X6.  [updateFormFieldStateOnBlur(name)] on a field of [formFields]
    returns normally, sets the touched flag of the field, and validates it:
    [isValid] is [true] exactly when every rule passes on the value of the
    field, the rules seeing the form with the flag already set.  The value
    is unchanged.  No conditional is evaluated and no field moves: both
    tables and the other field objects are as they were. *)
Theorem updateFormFieldStateOnBlur_touches_and_validates
    (s : FormManager) (name : string) (r : Ref) (f : FormField.t) :
  get name (formFields s) = Some r ->
  nth_error (heap s) r = Some f ->
  let seen := state_after (store r (FormField.set_isTouched true)) s in
  let passes :=
    fun q => ValidationRule.validate q (FormField.value f) (view seen) in
  let s' := state_after (updateFormFieldStateOnBlur name) s in
  completion_of (updateFormFieldStateOnBlur name) s = Normal tt
  /\ (forall n, isShowing_evaluations n
                  (evaluations_of (updateFormFieldStateOnBlur name) s) = [])
  /\ formFields s' = formFields s
  /\ conditionallyRemovedFormFields s' = conditionallyRemovedFormFields s
  /\ (forall r', r' <> r -> nth_error (heap s') r' = nth_error (heap s) r')
  /\ exists f',
       nth_error (heap s') r = Some f'
       /\ FormField.isTouched f' = true
       /\ FormField.value f' = FormField.value f
       /\ FormField.isValid f' = forallb passes (FormField.validationRules f)
       /\ same_configuration f f'.
Proof.
  intros Hget Hcell seen passes s'. subst s'.
  assert (Hseen : nth_error (heap seen) r = Some (FormField.set_isTouched true f)).
  { unfold seen. rewrite state_after_store. simpl.
    rewrite nth_error_update_nth_same, Hcell. reflexivity. }
  destruct (@runValidations_cell seen name r
              (FormField.set_isTouched true f) Hget Hseen)
    as (s' & evs & Hrv & Hno & Ha & Hr & Hnew & Hothers).
  assert (Hrun : updateFormFieldStateOnBlur name s = (Normal tt, s', evs)).
  { unfold updateFormFieldStateOnBlur.
    step_bind (eq_refl : this s = (Normal s, s, [])). rewrite (@read_own _ _ _ _ Hget).
    step_bind (eq_refl : store r (FormField.set_isTouched true) s
                         = (Normal tt, seen, [])).
    now rewrite Hrv. }
  unfold completion_of, evaluations_of, state_after at 1 2 3 4.
  rewrite Hrun. simpl.
  split; [reflexivity|]. split; [exact Hno|]. split; [exact Ha|].
  split; [exact Hr|]. split.
  - intros r' Hr'. rewrite (Hothers r' Hr'). unfold seen.
    rewrite state_after_store. simpl.
    apply nth_error_update_nth_other. congruence.
  - eexists. split; [exact Hnew|]. simpl.
    split; [reflexivity|]. split; [reflexivity|].
    split; [apply isValid_of_first_failing | repeat split].
Qed.

Lemma updateFormFieldStateOnBlur_touches_and_validates_witness :
  get "username" (formFields username_form) = Some 0
  /\ exists f',
       nth_error
         (heap (state_after (updateFormFieldStateOnBlur "username")
                  username_form)) 0 = Some f'
       /\ FormField.isTouched f' = true
       /\ FormField.isValid f' = false.
Proof.
  split; [reflexivity|].
  destruct (@updateFormFieldStateOnBlur_touches_and_validates
              username_form "username" 0 (deref username_form 0)
              eq_refl eq_refl)
    as (_ & _ & _ & _ & _ & f' & Hcell & Ht & _ & Hvalid & _).
  exists f'. split; [exact Hcell|]. split; [exact Ht|].
  rewrite Hvalid. reflexivity.
Defined.

(** ** What the manager never writes *)

Section Cells.
Variable Q : FormField.t -> FormField.t -> Prop.
Hypothesis Q_refl : forall f, Q f f.
Hypothesis Q_trans : forall f1 f2 f3, Q f1 f2 -> Q f2 f3 -> Q f1 f3.

Lemma cells_related_refl s : cells_related Q s s.
Proof. intros r f H. eauto. Qed.

Lemma cells_related_trans s1 s2 s3 :
  cells_related Q s1 s2 -> cells_related Q s2 s3 -> cells_related Q s1 s3.
Proof.
  intros H12 H23 r f Hf.
  destruct (H12 r f Hf) as (f2 & Hf2 & Hq2).
  destruct (H23 r f2 Hf2) as (f3 & Hf3 & Hq3). eauto.
Qed.

Lemma cells_related_store r g :
  (forall f, Q f (g f)) -> keeps (cells_related Q) (store r g).
Proof.
  intros Hg s r' f Hf. rewrite state_after_store. simpl.
  destruct (Nat.eq_dec r r') as [->|Hne].
  - rewrite nth_error_update_nth_same, Hf. simpl. eauto.
  - rewrite nth_error_update_nth_other by assumption. eauto.
Qed.

Lemma cells_related_runConditional n reason :
  keeps (cells_related Q) (runConditional n reason).
Proof.
  intros s r f Hf. rewrite heap_after_runConditional. eauto.
Qed.

Hypothesis Q_isValid : forall f b, Q f (FormField.set_isValid b f).
Hypothesis Q_errorMessage : forall f m, Q f (FormField.set_errorMessage m f).
Hypothesis Q_isTouched : forall f b, Q f (FormField.set_isTouched b f).
Hypothesis Q_value : forall f v, Q f (FormField.set_value v f).

Lemma cells_related_call c s :
  is_assignment c = false
  \/ ((forall f rules, Q f (FormField.set_validationRules rules f))
      /\ (forall f c', Q f (FormField.set_conditional c' f))) ->
  cells_related Q s (call c s).
Proof.
  intros Hc. destruct c; simpl.
  - intros r f Hf. rewrite heap_after_addFormField.
    exists f. split; [|apply Q_refl].
    rewrite nth_error_app1; [exact Hf|]. apply nth_error_Some. congruence.
  - intros r f Hf. exists f. split; [exact Hf | apply Q_refl].
  - apply (keeps_runValidations cells_related_refl cells_related_trans);
      intros; now apply cells_related_store.
  - apply cells_related_runConditional.
  - apply (keeps_updateFormFieldStateOnValueChange
             cells_related_refl cells_related_trans);
      intros; try now apply cells_related_store.
    apply cells_related_runConditional.
  - apply (keeps_updateFormFieldStateOnBlur
             cells_related_refl cells_related_trans);
      intros; now apply cells_related_store.
  - destruct Hc as [Hc|[Hrules _]]; [discriminate Hc|].
    apply cells_related_store. intros f. apply Hrules.
  - destruct Hc as [Hc|[_ Hcond]]; [discriminate Hc|].
    apply cells_related_store. intros f. apply Hcond.
Qed.
End Cells.






(** ** Names and the objects behind them *)

Lemma same_name_call c s : cells_related same_name s (call c s).
Proof.
  apply (@cells_related_call same_name);
    first [ now right; split; intros; reflexivity
          | intros; reflexivity
          | unfold same_name; intros; congruence ].
Qed.

Lemma stored_under_own_name_call c s :
  stored_under_own_name s -> stored_under_own_name (call c s).
Proof.
  intros I n r Hheld.
  assert (Hold : held s n r ->
                 exists f, nth_error (heap (call c s)) r = Some f
                           /\ FormField.name f = n).
  { intros H. destruct (I n r H) as (f & Hf & Hname).
    pose proof (same_name_call c s) as Hsn.
    destruct (Hsn r f Hf) as (f' & Hf' & Hsame).
    exists f'. split; [exact Hf'|]. unfold same_name in Hsame. congruence. }
  destruct c;
    try (apply Hold;
         match type of Hheld with
         | held (call ?c0 s) n r =>
             apply (@held_before_call n c0 s);
             [intros v; discriminate | exact Hheld]
         end).
  (* addFormField *)
  destruct (string_dec name n) as [->|Hne].
  - destruct Hheld as [H|H].
    + simpl in H. rewrite formFields_after_addFormField in H.
      destruct (String.eqb n "__proto__"); [apply Hold; now left|].
      rewrite get_set_same in H. injection H as <-.
      exists (FormField.new n initialValue). split; [|reflexivity].
      simpl. rewrite heap_after_addFormField.
      rewrite nth_error_app2 by lia. now rewrite Nat.sub_diag.
    + simpl in H. rewrite removed_after_addFormField in H.
      apply Hold. right. exact H.
  - apply Hold.
    apply (@held_before_call n (AddFormField name initialValue) s);
      [|exact Hheld].
    intros v. congruence.
Qed.



(** *** No object in both tables *)








(** ** Names come and go by [addFormField] and [removeFormField] only *)

Lemma present_same_refl name s : present_same name s s.
Proof. reflexivity. Qed.

Lemma present_same_trans name s1 s2 s3 :
  present_same name s1 s2 -> present_same name s2 s3 -> present_same name s1 s3.
Proof. unfold present_same. congruence. Qed.

Lemma present_same_store name r g : keeps (present_same name) (store r g).
Proof. intros s. reflexivity. Qed.

Lemma present_selected s name r :
  selected s name = Some r -> present s name = true.
Proof.
  intros H. apply held_selected in H. unfold present, has.
  destruct H as [H|H]; rewrite H; auto using orb_true_r.
Qed.

Lemma selected_present s name :
  inherited name = false -> present s name = true ->
  exists r, selected s name = Some r.
Proof.
  intros Hord. rewrite (@selected_ordinary s name Hord). unfold present, has.
  destruct (get name (formFields s)) as [r|]; simpl; [eauto|].
  destruct (get name (conditionallyRemovedFormFields s)) as [r|];
    [eauto | discriminate].
Qed.

Lemma present_filed s n r b name :
  selected s n = Some r -> present (filed s n r b) name = present s name.
Proof.
  intros Hsel. destruct (string_dec n name) as [->|Hne].
  - transitivity true.
    + unfold present, filed. destruct b; simpl.
      * now rewrite has_set_same.
      * rewrite has_set_same. apply orb_true_r.
    + symmetry. now apply (@present_selected s name r).
  - unfold present, filed. destruct b; simpl.
    + now rewrite has_set_other, has_delete_other.
    + now rewrite has_set_other, has_delete_other.
Qed.

Lemma present_same_runConditional name n reason :
  keeps (present_same name) (runConditional n reason).
Proof.
  intros s. unfold present_same, state_after.
  destruct (selected s n) as [r|] eqn:E.
  - rewrite (@runConditional_spec s n reason r E). simpl.
    now apply present_filed.
  - now rewrite (@runConditional_absent s n reason E).
Qed.

Lemma no_own_proto_call c s :
  present s "__proto__" = false -> present (call c s) "__proto__" = false.
Proof.
  intros H.
  destruct c; simpl;
    try (transitivity (present s "__proto__"); [|exact H]).
  - unfold present.
    rewrite formFields_after_addFormField, removed_after_addFormField.
    destruct (String.eqb name "__proto__") eqn:E; [reflexivity|].
    rewrite has_set_other; [reflexivity|].
    intros ->. discriminate E.
  - unfold state_after. rewrite removeFormField_spec. unfold present. simpl.
    destruct (string_dec name "__proto__") as [->|Hne].
    + rewrite has_delete_same. unfold present in H.
      apply orb_false_iff in H. destruct H as [Ha Hr]. now rewrite Ha.
    + now rewrite has_delete_other.
  - apply (keeps_runValidations (@present_same_refl "__proto__")
             (@present_same_trans "__proto__"));
      intros; apply present_same_store.
  - apply present_same_runConditional.
  - apply (keeps_updateFormFieldStateOnValueChange
             (@present_same_refl "__proto__")
             (@present_same_trans "__proto__"));
      intros; try apply present_same_store.
    apply present_same_runConditional.
  - apply (keeps_updateFormFieldStateOnBlur (@present_same_refl "__proto__")
             (@present_same_trans "__proto__"));
      intros; apply present_same_store.
  - reflexivity.
  - reflexivity.
Qed.

(** Every manager built from [new FormManager()] by calls has tables that
    list each own name once and have no own property [__proto__]: the
    assignments of [runConditional] never fall on that name. *)
Lemma table_invariant_calls cs :
  nodup_tables (calls cs new_FormManager)
  /\ present (calls cs new_FormManager) "__proto__" = false.
Proof.
  split; [apply nodup_tables_calls, nodup_tables_new|].
  assert (H : forall s, present s "__proto__" = false ->
                        present (calls cs s) "__proto__" = false).
  { induction cs as [|c cs IH]; intros s Hs; simpl; auto.
    apply IH. now apply no_own_proto_call. }
  now apply H.
Qed.

(** X10.  The set of names the manager knows changes only by
    [addFormField] and [removeFormField]: any other call, and these two on
    another name, leave a name in a table exactly when it was in one before.
    Validation, value changes, blurs and conditionals never create a name
    and never lose one. *)
Theorem names_change_only_by_add_and_remove
    (c : Call) (s : FormManager) (name : string) :
  (forall v, c <> AddFormField name v) ->
  c <> RemoveFormField name ->
  present (call c s) name = present s name.
Proof.
  intros Hadd Hremove. destruct c; simpl.
  - unfold present.
    rewrite formFields_after_addFormField, removed_after_addFormField.
    destruct (String.eqb name0 "__proto__"); [reflexivity|].
    rewrite has_set_other; [reflexivity|].
    intros ->. now apply (Hadd initialValue).
  - unfold state_after. rewrite removeFormField_spec. unfold present. simpl.
    rewrite has_delete_other; [reflexivity|]. congruence.
  - apply (keeps_runValidations (@present_same_refl name)
             (@present_same_trans name));
      intros; apply present_same_store.
  - apply present_same_runConditional.
  - apply (keeps_updateFormFieldStateOnValueChange (@present_same_refl name)
             (@present_same_trans name));
      intros; try apply present_same_store.
    apply present_same_runConditional.
  - apply (keeps_updateFormFieldStateOnBlur (@present_same_refl name)
             (@present_same_trans name));
      intros; apply present_same_store.
  - reflexivity.
  - reflexivity.
Qed.

Lemma names_change_only_by_add_and_remove_witness :
  present country_state_form "state" = true
  /\ present
       (call (UpdateFormFieldStateOnValueChange "country" (VString "CA"))
          country_state_form) "state" = true.
Proof.
  split; [reflexivity|].
  rewrite (@names_change_only_by_add_and_remove
             (UpdateFormFieldStateOnValueChange "country" (VString "CA"))
             country_state_form "state");
    [reflexivity | intros v; discriminate | discriminate].
Defined.

(** ** What [runConditional] moves *)

(** X11.  [runConditional(name, reason)] on a name held by a table, other
    than the names objects inherit from [Object.prototype], returns normally
    and leaves the name a key of exactly one table, also when it was a key
    of both before.  It moves nothing else: the entries of every other name
    in both tables and all field objects are as they were. *)
Theorem runConditional_moves_one_name
    (s : FormManager) (name reason : string) :
  inherited name = false ->
  present s name = true ->
  let s' := state_after (runConditional name reason) s in
  completion_of (runConditional name reason) s = Normal tt
  /\ in_exactly_one s' name = true
  /\ heap s' = heap s
  /\ (forall n, n <> name ->
        get n (formFields s') = get n (formFields s)
        /\ get n (conditionallyRemovedFormFields s')
           = get n (conditionallyRemovedFormFields s)).
Proof.
  intros Hord Hp. destruct (@selected_present s name Hord Hp) as [r Hsel].
  unfold state_after, completion_of.
  rewrite (@runConditional_spec s name reason r Hsel). simpl.
  split; [reflexivity|]. split; [apply in_exactly_one_filed|].
  split; [apply heap_filed|].
  intros n Hn. apply get_filed_other. congruence.
Qed.

Lemma runConditional_moves_one_name_witness :
  in_exactly_one doubled_form "a" = false
  /\ in_exactly_one (state_after (runConditional "a" "x") doubled_form) "a"
     = true.
Proof.
  split; [reflexivity|].
  apply (proj1 (proj2 (@runConditional_moves_one_name doubled_form "a" "x"
                         eq_refl eq_refl))).
Defined.

(** ** Hidden fields and the validity of the form *)

(** X12.  When every field of [formFields] but [name] is valid and the
    conditional of [name] answers [false], the form is valid once
    [runConditional(name, reason)] has run, whether or not the field called
    [name] is valid: a field that is conditionally removed no longer
    counts. *)
Theorem isFormValid_after_hiding
    (s : FormManager) (name reason : string) (r : Ref) :
  get name (formFields s) = Some r ->
  isShowing_of s reason r = false ->
  (forall n r', n <> name -> get n (formFields s) = Some r' ->
                FormField.isValid (deref s r') = true) ->
  completion_of isFormValid (state_after (runConditional name reason) s)
    = Normal true.
Proof.
  intros Hget Hhide Hvalid.
  assert (Hsel : selected s name = Some r).
  { now apply selected_own. }
  unfold state_after, completion_of.
  rewrite (@runConditional_spec s name reason r Hsel). simpl.
  rewrite Hhide. rewrite isFormValid_spec. simpl. f_equal.
  apply forallb_forall. intros n Hn. apply In_Object_keys in Hn.
  unfold filed in *. simpl in *. unfold valid_at. simpl.
  destruct (string_dec name n) as [->|Hne].
  - now rewrite get_delete_same in Hn.
  - rewrite get_delete_other in * by assumption.
    destruct (get n (formFields s)) as [r'|] eqn:E; [|congruence].
    apply (Hvalid n r'); [congruence | exact E].
Qed.

Lemma isFormValid_after_hiding_witness :
  completion_of isFormValid configured_form = Normal false
  /\ completion_of isFormValid
       (state_after (runConditional "a" "x") configured_form) = Normal true.
Proof.
  split; [reflexivity|].
  apply (@isFormValid_after_hiding configured_form "a" "x" 0);
    [reflexivity | reflexivity |].
  intros n r' Hne Hget. simpl in Hget.
  destruct (String.eqb n "a") eqn:E; [|discriminate Hget].
  apply String.eqb_eq in E. congruence.
Defined.

(** ** Reading the values *)

Lemma stored_under_own_name_calls cs :
  forall s, stored_under_own_name s -> stored_under_own_name (calls cs s).
Proof.
  induction cs as [|c cs IH]; intros s I; simpl; auto.
  apply IH. now apply stored_under_own_name_call.
Qed.

Lemma stored_under_own_name_new : stored_under_own_name new_FormManager.
Proof. intros n r [H|H]; discriminate H. Qed.

Lemma getValues_loop_spec s ks :
  stored_under_own_name s ->
  (forall k, In k ks -> get k (formFields s) <> None) ->
  forall values,
  exists values',
    getValues_loop (map (fun k => get k (formFields s)) ks) values s
      = (Normal values', s, [])
    /\ (forall n, In n ks ->
          get n values' =
            option_map (fun r => FormField.value (deref s r))
              (get n (formFields s)))
    /\ (forall n, ~ In n ks -> get n values' = get n values).
Proof.
  intros I. induction ks as [|k ks IH]; intros Hks values.
  - exists values. simpl. repeat split; auto. intros n [].
  - destruct (get k (formFields s)) as [r|] eqn:E;
      [|exfalso; apply (Hks k); [now left | exact E]].
    destruct (I k r (or_introl E)) as (f & Hf & Hname).
    assert (Hderef : deref s r = f) by (apply nth_error_nth; exact Hf).
    destruct (IH (fun m Hm => Hks m (or_intror Hm))
                (set k (FormField.value f) values))
      as (values' & Hrun & Hin & Hout).
    exists values'. split; [|split].
    + simpl. rewrite E.
      step_bind (eq_refl : member_of (Some r) s = (Normal (deref s r), s, [])).
      rewrite Hderef, Hname. now rewrite Hrun.
    + intros n [->|Hn]; [|now apply Hin].
      destruct (in_dec string_dec n ks) as [Hn|Hn]; [now apply Hin|].
      rewrite (Hout n Hn), get_set_same, E. simpl. now rewrite Hderef.
    + intros n Hn.
      assert (Hne : k <> n) by (intros ->; apply Hn; now left).
      rewrite Hout by (intros H; apply Hn; now right).
      now apply get_set_other.
Qed.

(** X13.  On a manager whose fields are stored under their own names,
    [getValues()] returns normally, leaves the manager as it was, and
    returns an object with exactly the names of [formFields], each with the
    value of its field.  A conditionally removed field is not listed. *)
Theorem getValues_lists_active_values (s : FormManager) :
  stored_under_own_name s ->
  exists values,
    getValues s = (Normal values, s, [])
    /\ forall n,
         get n values =
           option_map (fun r => FormField.value (deref s r))
             (get n (formFields s)).
Proof.
  intros I.
  destruct (@getValues_loop_spec s (Object_keys (formFields s)) I
              (fun k Hk => proj1 (In_Object_keys (formFields s) k) Hk) [])
    as (values & Hrun & Hin & Hout).
  exists values. split.
  - unfold getValues.
    step_bind (eq_refl : this s = (Normal s, s, [])).
    unfold Object_values. now rewrite Hrun.
  - intros n. destruct (get n (formFields s)) as [r|] eqn:E.
    + rewrite Hin; [now rewrite E|]. apply In_Object_keys. congruence.
    + rewrite Hout; [reflexivity|]. intros Hn.
      apply In_Object_keys in Hn. congruence.
Qed.

Lemma getValues_lists_active_values_witness :
  exists values,
    getValues hidden_form = (Normal values, hidden_form, [])
    /\ get "a" values = None.
Proof.
  destruct (@getValues_lists_active_values hidden_form
              (@stored_under_own_name_calls _ _ stored_under_own_name_new))
    as (values & Hrun & Hget).
  exists values. split; [exact Hrun|]. rewrite Hget. reflexivity.
Defined.

(** ** A value change that changes the value *)

Lemma heap_same_refl s : heap_same s s.
Proof. reflexivity. Qed.

Lemma heap_same_trans s1 s2 s3 :
  heap_same s1 s2 -> heap_same s2 s3 -> heap_same s1 s3.
Proof. unfold heap_same. congruence. Qed.

(** [propagation] moves fields between the tables and writes no field. *)
Lemma heap_same_propagation name : keeps heap_same (propagation name).
Proof.
  assert (Hf : forall (table : FormManager -> JSObject Ref) l,
             keeps heap_same
               (filterM (fun n => s' <- this ;;
                                  hasDependency name (read n (table s'))) l)).
  { intros table l. apply (@keeps_filterM heap_same heap_same_refl heap_same_trans).
    intros n. apply (@keeps_bind heap_same heap_same_trans).
    - apply (@keeps_this heap_same heap_same_refl).
    - intros s'. apply (@keeps_hasDependency heap_same heap_same_refl heap_same_trans). }
  assert (Hl : forall l,
             keeps heap_same
               (forEach l (fun fieldName => runConditional fieldName name))).
  { intros l. apply (@keeps_forEach heap_same heap_same_refl heap_same_trans).
    intros x s. apply heap_after_runConditional. }
  unfold propagation.
  apply (@keeps_bind heap_same heap_same_trans);
    [apply (@keeps_this heap_same heap_same_refl)|]. intros s1.
  apply (@keeps_bind heap_same heap_same_trans);
    [apply (Hf formFields)|]. intros l1.
  apply (@keeps_bind heap_same heap_same_trans); [apply Hl|]. intros _.
  apply (@keeps_bind heap_same heap_same_trans);
    [apply (@keeps_this heap_same heap_same_refl)|]. intros s2.
  apply (@keeps_bind heap_same heap_same_trans);
    [apply (Hf conditionallyRemovedFormFields)|]. intros l2.
  apply Hl.
Qed.

(** A value change with a different value, up to the propagation: the
    field is touched, given the value and validated, then [propagation]
    runs. *)
Lemma updateFormFieldStateOnValueChange_run s name v r f :
  get name (formFields s) = Some r ->
  nth_error (heap s) r = Some f ->
  strict_equal (FormField.value f) v = false ->
  let seen :=
    state_after (store r (FormField.set_value v))
      (state_after (store r (FormField.set_isTouched true)) s) in
  let validityObj :=
    validity_of (first_failing seen v (FormField.validationRules f)) in
  let f' :=
    FormField.set_errorMessage (validity_errorMessage validityObj)
      (FormField.set_isValid (validity_isValid validityObj)
         (FormField.set_value v (FormField.set_isTouched true f))) in
  exists s1 evs,
    updateFormFieldStateOnValueChange name v s =
      (completion_of (propagation name) s1,
       state_after (propagation name) s1,
       (evs ++ evaluations_of (propagation name) s1)%list)
    /\ (forall n, isShowing_evaluations n evs = [])
    /\ formFields s1 = formFields s
    /\ conditionallyRemovedFormFields s1 = conditionallyRemovedFormFields s
    /\ nth_error (heap s1) r = Some f'
    /\ (forall r', r' <> r -> nth_error (heap s1) r' = nth_error (heap s) r')
    /\ (forall r', depends_on s1 name r' = depends_on s name r').
Proof.
  intros Hget Hcell Hdiff seen validityObj f'.
  pose (s_a := state_after (store r (FormField.set_isTouched true)) s).
  assert (Ha : nth_error (heap s_a) r = Some (FormField.set_isTouched true f)).
  { unfold s_a. rewrite state_after_store. simpl.
    rewrite nth_error_update_nth_same, Hcell. reflexivity. }
  assert (Hb : nth_error (heap seen) r
               = Some (FormField.set_value v (FormField.set_isTouched true f))).
  { unfold seen. fold s_a. rewrite state_after_store. cbn [heap].
    rewrite nth_error_update_nth_same, Ha. reflexivity. }
  destruct (@runValidations_cell seen name r _ Hget Hb)
    as (s1 & evs & Hrv & Hno & Ht1 & Ht2 & Hnew & Hothers).
  destruct (@runValidations_spec seen name r Hget)
    as (vo & evs0 & _ & _ & Hrv0).
  exists s1, evs. split; [|split; [exact Hno|split; [exact Ht1|split;
    [exact Ht2|split; [exact Hnew|split]]]]].
  - pose (T := (completion_of (propagation name) s1,
                state_after (propagation name) s1,
                (evs ++ evaluations_of (propagation name) s1)%list)).
    change (updateFormFieldStateOnValueChange name v s = T).
    assert (E4 : (runValidations name ;;; propagation name) seen = T).
    { rewrite (@bind_run _ _ _ _ _ _ _ _ Hrv). reflexivity. }
    assert (E3 : (store r (FormField.set_value v) ;;;
                  runValidations name ;;; propagation name) s_a = T).
    { step_bind (eq_refl : store r (FormField.set_value v) s_a
                           = (Normal tt, seen, [])).
      now rewrite E4. }
    assert (Hval : FormField.value (deref s_a r) = FormField.value f).
    { unfold deref. now rewrite (nth_error_nth _ _ _ Ha). }
    rewrite updateFormFieldStateOnValueChange_unfold.
    step_bind (eq_refl : this s = (Normal s, s, [])). rewrite (@read_own _ _ _ _ Hget).
    step_bind (eq_refl : store r (FormField.set_isTouched true) s
                         = (Normal tt, s_a, [])).
    step_bind (eq_refl : load r s_a = (Normal (deref s_a r), s_a, [])).
    rewrite Hval, Hdiff. now rewrite E3.
  - intros r' Hr'. rewrite (Hothers r' Hr'). unfold seen.
    rewrite !state_after_store. simpl.
    rewrite !nth_error_update_nth_other by congruence. reflexivity.
  - intros r'. rewrite Hrv in Hrv0. injection Hrv0 as -> _.
    change (depends_on
              (state_after
                 (store r (FormField.set_errorMessage (validity_errorMessage vo)))
                 (state_after
                    (store r (FormField.set_isValid (validity_isValid vo)))
                    seen)) name r' = depends_on s name r').
    unfold seen. now rewrite !depends_on_store.
Qed.



(** ** Where a value change leaves the other fields *)

(** X15.  Take a manager none of whose keys is the name of a member of
    [Object.prototype].  After a value change of [name] to a different
    value, a name under which [runConditional] finds a field that depends on
    [name] holds that field in the table its conditional last chose: in
    [formFields] when the last evaluation answered [true], in the table of
    removed fields when it answered [false], and in no case in both.  A name
    that is a key of both tables, where only the removed field depends on
    [name], is filed by the conditional of the field of [formFields], and the
    removed dependent is left in neither table.  A name none of whose fields
    depends on [name] is not evaluated and keeps its entries in both
    tables. *)
Theorem value_change_files_dependents_only
    (s : FormManager) (name : string) (v : Value) (rA : Ref) (f : FormField.t) :
  nodup_tables s ->
  ordinary_keys s = true ->
  get name (formFields s) = Some rA ->
  nth_error (heap s) rA = Some f ->
  strict_equal (FormField.value f) v = false ->
  let s' := state_after (updateFormFieldStateOnValueChange name v) s in
  let evs := evaluations_of (updateFormFieldStateOnValueChange name v) s in
  completion_of (updateFormFieldStateOnValueChange name v) s = Normal tt
  /\ (forall n r,
        selected s n = Some r ->
        depends_on s name r = true ->
        exists b pre,
          isShowing_evaluations n evs = (pre ++ [EvIsShowing n r name b])%list
          /\ get n (formFields s') = (if b then Some r else None)
          /\ get n (conditionallyRemovedFormFields s')
             = (if b then None else Some r))
  /\ (forall n ra rr,
        get n (formFields s) = Some ra ->
        depends_on s name ra = false ->
        get n (conditionallyRemovedFormFields s) = Some rr ->
        depends_on s name rr = true ->
        exists b : bool,
          isShowing_evaluations n evs = [EvIsShowing n ra name b]
          /\ get n (formFields s') = (if b then Some ra else None)
          /\ get n (conditionallyRemovedFormFields s')
             = (if b then None else Some ra))
  /\ (forall n,
        (forall r, held s n r -> depends_on s name r = false) ->
        get n (formFields s') = get n (formFields s)
        /\ get n (conditionallyRemovedFormFields s')
           = get n (conditionallyRemovedFormFields s)
        /\ isShowing_evaluations n evs = []).
Proof.
  intros Hnd Hord Hget Hcell Hdiff.
  assert (Hdiff' : strict_equal (FormField.value (deref s rA)) v = false).
  { unfold deref. now rewrite (nth_error_nth _ _ _ Hcell). }
  destruct (@updateFormFieldStateOnValueChange_evaluations s name v rA
              Hnd Hord Hget Hdiff')
    as (s' & evs' & Hrun & Hactive & Hremoved & Hboth & Hnone).
  unfold completion_of, state_after, evaluations_of. rewrite Hrun. simpl.
  split; [reflexivity|]. split; [|split; assumption].
  intros n r Hsel Hd.
  destruct (@selected_Some_inv s n r Hsel) as [Ha|(Ha & _ & Hr)].
  - destruct (Hactive n r Ha Hd) as [(He & Hfa & Hfr)|(b & He & Hfa & Hfr)].
    + exists true, []. auto.
    + exists b, [EvIsShowing n r name false]. auto.
  - destruct (Hremoved n r Ha Hr Hd) as (b & He & Hfa & Hfr).
    exists b, []. auto.
Qed.

Lemma country_state_form_facts :
  nodup_tables country_state_form
  /\ forall r, held country_state_form "country" r ->
               depends_on country_state_form "country" r = false.
Proof.
  split; [apply nodup_tables_calls, nodup_tables_new|].
  intros r [H|H]; [injection H as <-; reflexivity | discriminate H].
Qed.

Lemma value_change_files_dependents_only_witness :
  selected country_state_form "state" = Some 1
  /\ depends_on country_state_form "country" 1 = true
  /\ (let s' :=
        state_after
          (updateFormFieldStateOnValueChange "country" (VString "CA"))
          country_state_form in
      (exists b : bool,
          get "state" (formFields s') = (if b then Some 1 else None)
          /\ get "state" (conditionallyRemovedFormFields s')
             = (if b then None else Some 1))
      /\ get "country" (formFields s') = Some 0).
Proof.
  split; [reflexivity|]. split; [reflexivity|].
  destruct (@value_change_files_dependents_only country_state_form "country"
              (VString "CA") 0 (deref country_state_form 0)
              (proj1 country_state_form_facts) eq_refl eq_refl eq_refl eq_refl)
    as (_ & Hdep & _ & Hnone).
  split.
  - destruct (Hdep "state" 1 eq_refl eq_refl) as (b & pre & _ & Ha & Hr).
    exists b. split; [exact Ha | exact Hr].
  - destruct (Hnone "country" (proj2 country_state_form_facts)) as (Ha & _).
    rewrite Ha. reflexivity.
Defined.

(** ** Submitting the same value again *)

(** [===] is reflexive on every value but [NaN]. *)
Lemma strict_equal_refl v : v <> VNaN -> strict_equal v v = true.
Proof.
  intros Hv. destruct v; simpl; auto; try congruence.
  - apply Bool.eqb_reflx.
  - apply Z.eqb_refl.
  - apply String.eqb_refl.
  - apply Nat.eqb_refl.
Qed.

Lemma update_nth_id (A : Type) (g : A -> A) l i x :
  nth_error l i = Some x -> g x = x -> update_nth i g l = l.
Proof.
  revert i. induction l as [|y l IH]; intros [|i]; simpl; try discriminate.
  - intros [= ->] Hg. now rewrite Hg.
  - intros Hx Hg. now rewrite (IH i Hx Hg).
Qed.

Lemma set_isTouched_touched f :
  FormField.isTouched f = true -> FormField.set_isTouched true f = f.
Proof. destruct f. simpl. now intros ->. Qed.

(** A value change with the value the field has, on a field that is
    already touched, is the identity. *)
Lemma updateFormFieldStateOnValueChange_touched_same s name v r f :
  get name (formFields s) = Some r ->
  nth_error (heap s) r = Some f ->
  FormField.isTouched f = true ->
  strict_equal (FormField.value f) v = true ->
  updateFormFieldStateOnValueChange name v s = (Normal tt, s, []).
Proof.
  intros Hget Hcell Ht Hsame.
  pose (s_a := state_after (store r (FormField.set_isTouched true)) s).
  assert (Hid : s_a = s).
  { unfold s_a. rewrite state_after_store.
    rewrite (@update_nth_id _ (FormField.set_isTouched true) (heap s) r f
               Hcell (@set_isTouched_touched f Ht)).
    now destruct s. }
  rewrite updateFormFieldStateOnValueChange_unfold.
  step_bind (eq_refl : this s = (Normal s, s, [])). rewrite (@read_own _ _ _ _ Hget).
  step_bind (eq_refl : store r (FormField.set_isTouched true) s
                       = (Normal tt, s_a, [])).
  clearbody s_a. subst s_a.
  step_bind (eq_refl : load r s = (Normal (deref s r), s, [])).
  unfold deref. rewrite (nth_error_nth _ _ _ Hcell), Hsame. reflexivity.
Qed.

(** X16.  Submitting a value twice does the work once, unless the value is
    [NaN].  After a value change of [name] to a different value [v] other
    than [NaN], if the field is still in [formFields], a second
    [updateFormFieldStateOnValueChange(name, v)] returns normally, runs no
    rule and no conditional, and leaves the manager exactly as the first
    call left it.  ([NaN === NaN] is [false]: a [NaN] submitted again is a
    changed value again, see [value_change_twice_NaN].) *)
Theorem value_change_twice_is_once
    (s : FormManager) (name : string) (v : Value) (r : Ref) (f : FormField.t) :
  v <> VNaN ->
  get name (formFields s) = Some r ->
  nth_error (heap s) r = Some f ->
  strict_equal (FormField.value f) v = false ->
  let s' := state_after (updateFormFieldStateOnValueChange name v) s in
  get name (formFields s') = Some r ->
  updateFormFieldStateOnValueChange name v s' = (Normal tt, s', []).
Proof.
  intros Hv Hget Hcell Hdiff s' Hstill.
  destruct (@updateFormFieldStateOnValueChange_run s name v r f
              Hget Hcell Hdiff)
    as (s1 & evs & Hrun & _ & _ & _ & Hnew & _ & _).
  assert (Hheap : heap s' = heap s1).
  { unfold s', state_after at 1. rewrite Hrun. simpl.
    apply (heap_same_propagation name s1). }
  rewrite <- Hheap in Hnew.
  apply (@updateFormFieldStateOnValueChange_touched_same s' name v r _
           Hstill Hnew); [reflexivity|].
  simpl. now apply strict_equal_refl.
Qed.

Lemma value_change_twice_is_once_witness :
  let s' :=
    state_after (updateFormFieldStateOnValueChange "country" (VString "CA"))
      country_state_form in
  get "country" (formFields s') = Some 0
  /\ updateFormFieldStateOnValueChange "country" (VString "CA") s'
     = (Normal tt, s', []).
Proof.
  split; [reflexivity|].
  apply (@value_change_twice_is_once country_state_form "country"
           (VString "CA") 0 (deref country_state_form 0));
    first [reflexivity | discriminate].
Defined.

(** With [NaN] the second call is not a repetition: in [username_form] the
    first rule is evaluated by the first call and again by the second. *)
Example value_change_twice_NaN :
  let s' :=
    state_after (updateFormFieldStateOnValueChange "username" VNaN)
      username_form in
  evaluations_of (updateFormFieldStateOnValueChange "username" VNaN)
    username_form = [EvValidate 0 0 false]
  /\ evaluations_of (updateFormFieldStateOnValueChange "username" VNaN) s'
     = [EvValidate 0 0 false].
Proof. split; reflexivity. Qed.
